(** * compress-districts.py: a shallow embedding and its verified properties

    The script rewrites GeoJSON district files in place: property keys are
    shortened through [PROPERTY_MAP], null and empty values are dropped,
    coordinates are rounded to six decimals and the document is dumped in
    compact form.  This file embeds

      - the Python values that [json.load] produces ([json]),
      - the exceptions the script can raise ([exn], [result]),
      - [compress_properties], [round_coordinates], the body of
        [compress_geojson] and [main],

    and proves the properties of the specification about them. *)

From Stdlib Require Import ZArith List String Ascii Bool Lia.
From Stdlib Require Import Floats.SpecFloat.
From Stdlib Require Import Sorting.Sorted.
Import ListNotations.

Local Open Scope string_scope.
Local Open Scope list_scope.

Set Warnings "-register-all".

(** ** Exceptions and the result monad *)

(** The Python exceptions that the embedded code can raise. *)
Inductive exn : Type :=
| IndexError
| KeyError
| TypeError
| AttributeError
| OverflowError
| ZeroDivisionError
| FileNotFoundError
| JSONDecodeError.

Inductive result (A : Type) : Type :=
| Ok (a : A)
| Raise (e : exn).

Arguments Ok {A} a.
Arguments Raise {A} e.

Definition bind {A B : Type} (m : result A) (k : A -> result B) : result B :=
  match m with
  | Ok a => k a
  | Raise e => Raise e
  end.

Notation "x <- m ;; k" := (bind m (fun x => k))
  (at level 61, m at next level, right associativity).
Notation "' pat <- m ;; k" := (bind m (fun x => match x with pat => k end))
  (at level 61, pat pattern, m at next level, right associativity).

(** A list comprehension [[f(c) for c in l]]: elements are evaluated from
    left to right and the first exception aborts the whole comprehension. *)
Definition mapM {A B : Type} (f : A -> result B) : list A -> result (list B) :=
  fix go (l : list A) : result (list B) :=
    match l with
    | [] => Ok []
    | x :: l' =>
        y <- f x ;;
        ys <- go l' ;;
        Ok (y :: ys)
    end.

(** ** Python values produced by [json.load] *)

(** A [float] is an IEEE 754 binary64 value, held as sign, mantissa and
    binary exponent ([S754_finite s m e] is [(-1)^s * m * 2^e]).  A [dict]
    is an association list in insertion order, as Python dicts iterate. *)
Inductive json : Type :=
| JNull
| JBool (b : bool)
| JInt (z : Z)
| JFloat (f : spec_float)
| JStr (s : string)
| JList (l : list json)
| JObj (kvs : list (string * json)).

Definition dict : Type := list (string * json).

(** [d.get(k)]: the value stored under [k], if any. *)
Fixpoint dict_get (k : string) (d : dict) : option json :=
  match d with
  | [] => None
  | (k', v) :: d' => if String.eqb k k' then Some v else dict_get k d'
  end.

(** [k in d]. *)
Definition dict_mem (k : string) (d : dict) : bool :=
  match dict_get k d with
  | Some _ => true
  | None => false
  end.

(** [d[k] = v]: an existing key keeps its position and takes the new value,
    a new key is appended. *)
Fixpoint dict_set (k : string) (v : json) (d : dict) : dict :=
  match d with
  | [] => [(k, v)]
  | (k', v') :: d' =>
      if String.eqb k k' then (k', v) :: d' else (k', v') :: dict_set k v d'
  end.

Definition keys (d : dict) : list string := map fst d.

(** Truth value of a Python object, as [if x:] and [not x] test it. *)
Definition truthy (v : json) : bool :=
  match v with
  | JNull => false
  | JBool b => b
  | JInt z => negb (Z.eqb z 0)
  | JFloat (S754_zero _) => false
  | JFloat _ => true
  | JStr s => negb (String.eqb s "")
  | JList l => match l with [] => false | _ => true end
  | JObj d => match d with [] => false | _ => true end
  end.

(** ** The rename table *)

(** The first key of the table, byte for byte as the script spells it:
    after [cient] come the six bytes E2 88 9A E2 89 A0 (the characters
    U+221A and U+2260), not the two bytes C3 AD of an accented i. *)
Definition key_nombre_cientifico : string :=
  "Nombre cient" ++
  String "226" (String "136" (String "154"
    (String "226" (String "137" (String "160" "fico"))))).

(** [Nombre científico], the key with an accented i in UTF-8. *)
Definition key_nombre_cientifico_utf8 : string :=
  "Nombre cient" ++ String "195" (String "173" "fico").

(** [PROPERTY_MAP]: long key to short key, [None] to remove the field. *)
Definition PROPERTY_MAP : list (string * option string) :=
  [ (key_nombre_cientifico, Some "sn");
    ("CODIGO_ESP", Some "cn");
    ("diameter", Some "d");
    ("height", Some "h");
    ("NBRE_DTO", Some "dt");
    ("NBRE_BARRI", Some "nb");
    ("species", Some "sn");
    ("common_name", Some "cn");
    ("ASSETNUM", None);
    ("NUM_DTO", None);
    ("NUM_BARRIO", None) ].

(** [PROPERTY_MAP.get(key)], [None] when [key not in PROPERTY_MAP]. *)
Fixpoint map_lookup (key : string) (m : list (string * option string))
  : option (option string) :=
  match m with
  | [] => None
  | (k, s) :: m' => if String.eqb key k then Some s else map_lookup key m'
  end.

(** ** compress_properties *)

Definition is_none (v : json) : bool :=
  match v with JNull => true | _ => false end.

(** [value == ""]: only the empty [str] equals the empty string. *)
Definition is_empty_str (v : json) : bool :=
  match v with JStr s => String.eqb s "" | _ => false end.

(** One iteration of the loop over [props.items()], on the dict
    [compressed] built so far. *)
Definition compress_step (compressed : dict) (kv : string * json) : dict :=
  let (key, value) := kv in
  if is_none value || is_empty_str value then compressed
  else
    match map_lookup key PROPERTY_MAP with
    | Some short_key =>
        match short_key with
        | None => compressed
        | Some sk => dict_set sk value compressed
        end
    | None => dict_set key value compressed
    end.

Definition compress_entries (props : dict) : dict :=
  fold_left compress_step props [].

(** [compress_properties(props)].  A false [props] ([None], an empty dict,
    but also [0], [""], [[]]) gives [{}]; any other value that is not a
    dict has no [items] attribute. *)
Definition compress_properties (props : json) : result json :=
  if negb (truthy props) then Ok (JObj [])
  else
    match props with
    | JObj d => Ok (JObj (compress_entries d))
    | _ => Raise AttributeError
    end.

(** ** The rounding primitive *)

(** [round(x, ndigits)] on a [float] is correctly rounded in CPython: the
    exact binary value of [x] is rounded to [ndigits] decimals, ties going to
    the even digit, and the decimal result is converted back to the nearest
    binary64.  Both steps are exact computations on integers. *)

(** The integer nearest to [p / q] for [0 < q], ties to the even one. *)
Definition round_half_even (p q : Z) : Z :=
  let d := (p / q)%Z in
  match Z.compare (2 * (p mod q)) q with
  | Lt => d
  | Gt => (d + 1)%Z
  | Eq => if Z.even d then d else (d + 1)%Z
  end.

(** The fraction [p / (q * 2^e)] as numerator and denominator. *)
Definition shift_ratio (p q e : Z) : Z * Z :=
  if (0 <=? e)%Z then (p, (q * 2 ^ e)%Z) else ((p * 2 ^ (- e))%Z, q).

(** The binary64 nearest to [(-1)^s * p / q] for [0 <= p] and [0 < q], ties
    to the even mantissa; subnormals have exponent [-1074], and a magnitude
    beyond the largest finite value becomes an infinity. *)
Definition nearest_binary64 (s : bool) (p q : Z) : spec_float :=
  if (p =? 0)%Z then S754_zero s
  else
    let e1 := (Z.log2 p - Z.log2 q - 53)%Z in
    let (p1, q1) := shift_ratio p q e1 in
    let e2 := if (q1 * 2 ^ 53 <=? p1)%Z then (e1 + 1)%Z else e1 in
    let e := Z.max e2 (-1074) in
    let (p2, q2) := shift_ratio p q e in
    let m := round_half_even p2 q2 in
    let (m', e') := if (m =? 2 ^ 53)%Z then ((2 ^ 52)%Z, (e + 1)%Z) else (m, e) in
    if (m' =? 0)%Z then S754_zero s
    else if (971 <? e')%Z then S754_infinity s
    else S754_finite s (Z.to_pos m') e'.

(** The float that the literal [digits * 10^e10] denotes. *)
Definition float_of_decimal (s : bool) (digits e10 : Z) : spec_float :=
  if (0 <=? e10)%Z then nearest_binary64 s (digits * 10 ^ e10) 1
  else nearest_binary64 s digits (10 ^ (- e10)).

(** [float.__round__(x, ndigits)]. *)
Definition float_round (x : spec_float) (ndigits : Z) : result spec_float :=
  match x with
  | S754_finite s m e =>
      if (323 <? ndigits)%Z then Ok x
      else if (ndigits <? -308)%Z then Ok (S754_zero s)
      else
        let (p, q) := shift_ratio (Z.pos m) 1 (- e) in
        let (p', q') :=
          if (0 <=? ndigits)%Z then ((p * 10 ^ ndigits)%Z, q)
          else (p, (q * 10 ^ (- ndigits))%Z) in
        let n := round_half_even p' q' in
        let r := float_of_decimal s n (- ndigits) in
        match r with
        | S754_infinity _ => Raise OverflowError
        | _ => Ok r
        end
  | _ => Ok x
  end.

(** [round(c, ndigits)] on a value of the document.  An [int] (and a [bool],
    which is an [int]) is returned as an [int]; the other types define no
    [__round__]. *)
Definition py_round (ndigits : Z) (c : json) : result json :=
  match c with
  | JFloat x => r <- float_round x ndigits ;; Ok (JFloat r)
  | JInt z =>
      if (0 <=? ndigits)%Z then Ok (JInt z)
      else Ok (JInt (round_half_even z (10 ^ (- ndigits)) * 10 ^ (- ndigits)))
  | JBool b =>
      let z := if b then 1%Z else 0%Z in
      if (0 <=? ndigits)%Z then Ok (JInt z)
      else Ok (JInt (round_half_even z (10 ^ (- ndigits)) * 10 ^ (- ndigits)))
  | _ => Raise TypeError
  end.

(** ** round_coordinates *)

(** [isinstance(v, list)]. *)
Definition is_list (v : json) : bool :=
  match v with JList _ => true | _ => false end.

(** [coords[0]].  An empty list or string has no first element, a dict
    loaded from JSON has only [str] keys, and the scalars are not
    subscriptable. *)
Definition getitem0 (coords : json) : result json :=
  match coords with
  | JList [] => Raise IndexError
  | JList (c :: _) => Ok c
  | JStr EmptyString => Raise IndexError
  | JStr (String a _) => Ok (JStr (String a EmptyString))
  | JObj _ => Raise KeyError
  | _ => Raise TypeError
  end.

(** The elements [for c in v] goes through: the items of a list, the keys
    of a dict, the characters of a string. *)
Fixpoint chars (s : string) : list json :=
  match s with
  | EmptyString => []
  | String a s' => JStr (String a EmptyString) :: chars s'
  end.

Definition py_iter (v : json) : result (list json) :=
  match v with
  | JList l => Ok l
  | JObj d => Ok (map (fun kv => JStr (fst kv)) d)
  | JStr s => Ok (chars s)
  | _ => Raise TypeError
  end.

(** [round_coordinates(coords, precision)].  The first element is looked at
    before anything else; a list whose first element is a list is mapped
    recursively, any other list (or string) element by element through
    [round]. *)
Fixpoint round_coordinates (precision : Z) (coords : json) : result json :=
  match coords with
  | JList [] => Raise IndexError
  | JList ((JList _ :: _) as cs) =>
      cs' <- mapM (round_coordinates precision) cs ;;
      Ok (JList cs')
  | JList cs =>
      cs' <- mapM (py_round precision) cs ;;
      Ok (JList cs')
  | JStr EmptyString => Raise IndexError
  | JStr s =>
      cs' <- mapM (py_round precision) (chars s) ;;
      Ok (JList cs')
  | JObj _ => Raise KeyError
  | _ => Raise TypeError
  end.

(** The default [precision=6] of the script. *)
Definition default_precision : Z := 6.

(** ** The transform of compress_geojson *)

(** [needle in s] on strings. *)
Fixpoint is_substring (needle s : string) : bool :=
  String.prefix needle s ||
  match s with
  | EmptyString => false
  | String _ s' => is_substring needle s'
  end.

(** [k in v] for a [str] [k]: key membership on a dict, element membership
    on a list, substring test on a string; the scalars are not iterable. *)
Definition py_contains (k : string) (v : json) : result bool :=
  match v with
  | JObj d => Ok (dict_mem k d)
  | JList l =>
      Ok (existsb (fun x => match x with JStr s => String.eqb s k | _ => false end) l)
  | JStr s => Ok (is_substring k s)
  | _ => Raise TypeError
  end.

(** [v[k]] for a [str] [k]: only a dict can be indexed by a string. *)
Definition py_getitem (v : json) (k : string) : result json :=
  match v with
  | JObj d =>
      match dict_get k d with
      | Some x => Ok x
      | None => Raise KeyError
      end
  | _ => Raise TypeError
  end.

(** [v[k] = x] for a [str] [k].  The document comes fresh from [json.load],
    so no object is reachable through two paths and the in-place update is
    the update of the enclosing value. *)
Definition py_setitem (v : json) (k : string) (x : json) : result json :=
  match v with
  | JObj d => Ok (JObj (dict_set k x d))
  | _ => Raise TypeError
  end.

(** The body of the loop [for feature in data['features']]. *)
Definition process_feature (feature : json) : result json :=
  has_props <- py_contains "properties" feature ;;
  feature1 <-
    (if has_props : bool then
       props <- py_getitem feature "properties" ;;
       compressed <- compress_properties props ;;
       py_setitem feature "properties" compressed
     else Ok feature) ;;
  has_geom <- py_contains "geometry" feature1 ;;
  if has_geom : bool then
    geometry <- py_getitem feature1 "geometry" ;;
    if truthy geometry then
      has_coords <- py_contains "coordinates" geometry ;;
      if has_coords : bool then
        coords <- py_getitem geometry "coordinates" ;;
        rounded <- round_coordinates default_precision coords ;;
        geometry' <- py_setitem geometry "coordinates" rounded ;;
        py_setitem feature1 "geometry" geometry'
      else Ok feature1
    else Ok feature1
  else Ok feature1.

(** The loop over [data['features']].  The items of a list are updated in
    place; iterating a dict or a string yields strings, which the body can
    only inspect (any update of them raises), so the value is left as is. *)
Definition process_features (features : json) : result json :=
  match features with
  | JList l => l' <- mapM process_feature l ;; Ok (JList l')
  | _ =>
      items <- py_iter features ;;
      _ <- mapM process_feature items ;;
      Ok features
  end.

(** What [compress_geojson] does to the loaded document before dumping it. *)
Definition transform (data : json) : result json :=
  has_features <- py_contains "features" data ;;
  if has_features : bool then
    features <- py_getitem data "features" ;;
    features' <- process_features features ;;
    py_setitem data "features" features'
  else Ok data.

(** ** Files and console *)

(** What each [print] of the script writes, with the values it formats. *)
Inductive message : Type :=
| MsgCompressing (name : string)
| MsgOriginal (original_size : nat)
| MsgCompressed (compressed_size : nat)
| MsgReduction (original_size compressed_size : nat)
| MsgDirNotFound
| MsgNoFiles
| MsgFound (count : nat)
| MsgBlank
| MsgRule
| MsgSummaryTitle
| MsgTotalOriginal (total_original : nat)
| MsgTotalCompressed (total_compressed : nat)
| MsgTotalReduction (total_original total_compressed : nat)
| MsgSpaceSaved (total_original total_compressed : nat).

(** Everything the script does to the outside, in the order it does it. *)
Inductive event : Type :=
| Printed (m : message)
| ReadFile (path : string)
| WriteFile (path : string) (content : string)
| StatFile (path : string).

(** The districts directory (whether it exists, and its files by name with
    their bytes) and the trace of the run so far. *)
Record world : Type := mkWorld {
  dir_exists : bool;
  files : list (string * string);
  trace : list event
}.

Definition emit (e : event) (w : world) : world :=
  mkWorld (dir_exists w) (files w) (trace w ++ [e]).

Fixpoint file_get (path : string) (fs : list (string * string)) : option string :=
  match fs with
  | [] => None
  | (p, c) :: fs' => if String.eqb path p then Some c else file_get path fs'
  end.

Fixpoint file_put (path content : string) (fs : list (string * string))
  : list (string * string) :=
  match fs with
  | [] => [(path, content)]
  | (p, c) :: fs' =>
      if String.eqb path p then (p, content) :: fs'
      else (p, c) :: file_put path content fs'
  end.

(** [open(path, 'r')] followed by reading the whole file. *)
Definition read_file (path : string) (w : world) : result (world * string) :=
  match file_get path (files w) with
  | Some c => Ok (emit (ReadFile path) w, c)
  | None => Raise FileNotFoundError
  end.

(** [open(path, 'w')] followed by writing [content]. *)
Definition write_file (path content : string) (w : world) : world :=
  emit (WriteFile path content)
       (mkWorld (dir_exists w) (file_put path content (files w)) (trace w)).

(** [path.stat().st_size]. *)
Definition stat_size (path : string) (w : world) : result (world * nat) :=
  match file_get path (files w) with
  | Some c => Ok (emit (StatFile path) w, String.length c)
  | None => Raise FileNotFoundError
  end.

Section Script.

(** The host's [json.load] and compact [json.dump], on the bytes of a
    file.  Serialising and writing are taken to succeed: an encoding error
    of [json.dump] and a failure of the file system are not part of the
    model, so the properties of the script speak of runs that return, or of
    inputs that are rejected before anything is written. *)
Variable json_load : string -> result json.
Variable json_dump : json -> string.

(** [compress_geojson(input_path, output_path)]: the sizes are both taken
    after the output has been written. *)
Definition compress_geojson (input_path output_path : string) (w : world)
  : result (world * (nat * nat)) :=
  let w := emit (Printed (MsgCompressing input_path)) w in
  '(w, text) <- read_file input_path w ;;
  data <- json_load text ;;
  data' <- transform data ;;
  let w := write_file output_path (json_dump data') w in
  '(w, original_size) <- stat_size input_path w ;;
  '(w, compressed_size) <- stat_size output_path w ;;
  match original_size with
  | O => Raise ZeroDivisionError
  | S _ =>
      let w := emit (Printed (MsgOriginal original_size)) w in
      let w := emit (Printed (MsgCompressed compressed_size)) w in
      let w := emit (Printed (MsgReduction original_size compressed_size)) w in
      Ok (w, (original_size, compressed_size))
  end.

(** [fnmatch(name, 'district_*.geojson')]. *)
Definition ends_with (suffix s : string) : bool :=
  (String.length suffix <=? String.length s)%nat &&
  String.eqb
    (String.substring (String.length s - String.length suffix)
                      (String.length suffix) s)
    suffix.

Definition is_district_file (name : string) : bool :=
  String.prefix "district_" name &&
  ends_with ".geojson" name &&
  (String.length "district_" + String.length ".geojson" <=? String.length name)%nat.

(** [sorted]: insertion into an ordered list of names. *)
Fixpoint insert_sorted (x : string) (l : list string) : list string :=
  match l with
  | [] => [x]
  | y :: l' => if String.leb x y then x :: l else y :: insert_sorted x l'
  end.

Definition sorted (l : list string) : list string :=
  fold_right insert_sorted [] l.

(** [sorted(districts_dir.glob('district_*.geojson'))]. *)
Definition glob_districts (w : world) : list string :=
  sorted (filter is_district_file (map fst (files w))).

(** The loop of [main] over the files, with the two running totals. *)
Fixpoint compress_all (geojson_files : list string)
                      (st : world * (nat * nat)) : result (world * (nat * nat)) :=
  match geojson_files with
  | [] => Ok st
  | input_file :: rest =>
      let '(w, (total_original, total_compressed)) := st in
      let output_file := input_file in
      '(w, (orig, comp)) <- compress_geojson input_file output_file w ;;
      let w := emit (Printed MsgBlank) w in
      compress_all rest (w, (total_original + orig, total_compressed + comp))
  end.

(** [main()]. *)
Definition main (w : world) : result world :=
  if negb (dir_exists w) then Ok (emit (Printed MsgDirNotFound) w)
  else
    let geojson_files := glob_districts w in
    match geojson_files with
    | [] => Ok (emit (Printed MsgNoFiles) w)
    | _ :: _ =>
        let w := emit (Printed (MsgFound (List.length geojson_files))) w in
        '(w, (total_original, total_compressed)) <-
          compress_all geojson_files (w, (0, 0)) ;;
        match total_original with
        | O => Raise ZeroDivisionError
        | S _ =>
            let w := emit (Printed MsgRule) w in
            let w := emit (Printed MsgSummaryTitle) w in
            let w := emit (Printed MsgRule) w in
            let w := emit (Printed (MsgTotalOriginal total_original)) w in
            let w := emit (Printed (MsgTotalCompressed total_compressed)) w in
            let w := emit (Printed (MsgTotalReduction total_original total_compressed)) w in
            let w := emit (Printed (MsgSpaceSaved total_original total_compressed)) w in
            Ok w
        end
    end.

End Script.

(** ** compress_properties on a heap of objects *)

(** Python passes [props] by reference.  Here the dicts live in a heap,
    addressed by position, and [compress_properties] threads the heap: it
    allocates [compressed] and updates it through its reference while it
    reads the entries of [props] out of the heap at every iteration.  The
    values of the entries are handed over as they are: the function never
    writes into a value. *)
Module Heap.

Definition loc : Type := nat.
Definition heap : Type := list dict.

Definition load (l : loc) (h : heap) : option dict := nth_error h l.

Fixpoint store (l : loc) (d : dict) (h : heap) {struct h} : heap :=
  match h, l with
  | [], _ => []
  | _ :: h', O => d :: h'
  | x :: h', S l' => x :: store l' d h'
  end.

(** A new object takes the next free position. *)
Definition alloc (d : dict) (h : heap) : heap * loc :=
  (h ++ [d], List.length h).

(** [obj[k] = v] through the reference [l]. *)
Definition setitem (l : loc) (k : string) (v : json) (h : heap) : heap :=
  match load l h with
  | Some d => store l (dict_set k v d) h
  | None => h
  end.

(** The body of the loop, on the reference [compressed]. *)
Definition compress_step (compressed : loc) (h : heap) (kv : string * json)
  : heap :=
  let (key, value) := kv in
  if is_none value || is_empty_str value then h
  else
    match map_lookup key PROPERTY_MAP with
    | Some short_key =>
        match short_key with
        | None => h
        | Some sk => setitem compressed sk value h
        end
    | None => setitem compressed key value h
    end.

(** [for key, value in props.items()]: the iterator holds the reference
    [props] and a position [i], and reads entry [i] of the dict as it is in
    the heap at that moment; [fuel] bounds the number of iterations. *)
Fixpoint items_loop (fuel : nat) (i : nat) (props compressed : loc) (h : heap)
  : heap :=
  match fuel with
  | O => h
  | S fuel' =>
      match load props h with
      | Some d =>
          match nth_error d i with
          | Some kv =>
              items_loop fuel' (S i) props compressed
                         (compress_step compressed h kv)
          | None => h
          end
      | None => h
      end
  end.

(** [compress_properties(props)] for a reference to a dict: the new heap
    and the reference returned, [None] when [props] is dangling. *)
Definition compress_properties (props : loc) (h : heap) : option (heap * loc) :=
  match load props h with
  | None => None
  | Some d =>
      match d with
      | [] => Some (alloc [] h)
      | _ :: _ =>
          let (h1, compressed) := alloc [] h in
          Some (items_loop (List.length d) 0 props compressed h1, compressed)
      end
  end.

End Heap.

(** ** The Property Compressor as the specification words it *)

(** What one entry contributes: nothing when its value is null or the empty
    string, nothing when the table maps its key to the removal marker, the
    value under the short key when the table has one, the entry itself when
    the key is absent from the table. *)
Definition spec_emit (kv : string * json) : option (string * json) :=
  match snd kv with
  | JNull => None
  | JStr EmptyString => None
  | v =>
      match map_lookup (fst kv) PROPERTY_MAP with
      | Some None => None
      | Some (Some short) => Some (short, v)
      | None => Some (fst kv, v)
      end
  end.

(** The entries emitted for a mapping, in its iteration order. *)
Fixpoint spec_emitted (p : dict) : list (string * json) :=
  match p with
  | [] => []
  | kv :: p' =>
      match spec_emit kv with
      | Some out => out :: spec_emitted p'
      | None => spec_emitted p'
      end
  end.

(** The mapping built from emitted entries, a later entry overwriting an
    earlier one with the same key. *)
Definition spec_compress (p : dict) : dict :=
  fold_left (fun m kv => dict_set (fst kv) (snd kv) m) (spec_emitted p) [].

(** The value that the last emitted entry with key [k] carries. *)
Definition last_emitted (k : string) (p : dict) : option json :=
  dict_get k (rev (spec_emitted p)).

(** ** Coordinate trees *)

Definition is_number (v : json) : bool :=
  match v with JInt _ | JFloat _ => true | _ => false end.

(** A tree nested uniformly to [depth]: a number at depth 0, a list of
    trees of depth [d] at depth [S d]. *)
Fixpoint uniform (depth : nat) (t : json) : bool :=
  match depth with
  | O => is_number t
  | S d =>
      match t with
      | JList l => forallb (uniform d) l
      | _ => false
      end
  end.

(** No list of the tree is empty. *)
Fixpoint no_empty_list (t : json) : bool :=
  match t with
  | JList [] => false
  | JList l => forallb no_empty_list l
  | _ => true
  end.

(** The nesting shape: the tree with its leaves erased. *)
Inductive shape : Type :=
| Leaf
| Node (children : list shape).

Fixpoint shape_of (t : json) : shape :=
  match t with
  | JList l => Node (map shape_of l)
  | _ => Leaf
  end.

(** The leaves from left to right. *)
Fixpoint leaves (t : json) : list json :=
  match t with
  | JList l => flat_map leaves l
  | v => [v]
  end.

(** The tree with [f] applied to every leaf, from left to right. *)
Fixpoint map_leaves (f : json -> result json) (t : json) : result json :=
  match t with
  | JList l => l' <- mapM (map_leaves f) l ;; Ok (JList l')
  | v => f v
  end.

(** The floats of the value are binary64: a finite one has a mantissa
    below [2^53] and an exponent of at most 971. *)
Definition is_binary64 (v : json) : bool :=
  match v with
  | JFloat (S754_finite _ m e) => (Z.pos m <? 2 ^ 53)%Z && (e <=? 971)%Z
  | _ => true
  end.

(** ** Rounding to six decimals, stated on exact values *)

(** [n] is the integer that round-half-to-even makes of the fraction
    [num / den], for [0 < den]: [n] lies less than one half away from the
    fraction, or exactly one half away and is even. *)
Definition half_even_nearest (n num den : Z) : bool :=
  let d := (2 * Z.abs (n * den - num))%Z in
  (d <? den)%Z || ((d =? den)%Z && Z.even n).

(** The exact value [m * 2^e] of a finite float multiplied by [10^6], as
    numerator and denominator. *)
Definition times_million (m : positive) (e : Z) : Z * Z :=
  if (0 <=? e)%Z then ((Z.pos m * 2 ^ e * 10 ^ 6)%Z, 1%Z)
  else ((Z.pos m * 10 ^ 6)%Z, (2 ^ (- e))%Z).

(** [y] is the number [x] rounded to six decimals, half to even: an [int]
    is itself; a finite float of sign [s] and exact value [v] becomes the
    float that the decimal [n * 10^-6] of sign [s] denotes, [n] being the
    integer that round-half-to-even makes of [v * 10^6]; a zero, an infinity
    and a nan are themselves. *)
Definition rounded_to_6_decimals (x y : json) : Prop :=
  match x with
  | JInt z => y = JInt z
  | JFloat (S754_finite s m e) =>
      exists n : Z,
        half_even_nearest n (fst (times_million m e))
                            (snd (times_million m e)) = true /\
        y = JFloat (float_of_decimal s n (-6))
  | JFloat f => y = JFloat f
  | _ => False
  end.

(** ** Scenarios and sample inputs *)

(** The float that the literal [30.2] denotes. *)
Definition float_30_2 : spec_float := float_of_decimal false 302 (-1).

(** The input of scenario 1, its first key spelled with an accented i. *)
Definition scenario1_input : dict :=
  [ (key_nombre_cientifico_utf8, JStr "Ceiba pentandra");
    ("ASSETNUM", JStr "12345");
    ("height", JFloat float_30_2) ].

(** The output that scenario 1 expects. *)
Definition scenario1_expected : dict :=
  [ ("sn", JStr "Ceiba pentandra"); ("h", JFloat float_30_2) ].

(** [[-74.0821234567, 4.6097654321]] and [[-74.082123, 4.609765]], each
    number being the float that its literal denotes. *)
Definition scenario3_input : json :=
  JList [ JFloat (float_of_decimal true 740821234567 (-10));
          JFloat (float_of_decimal false 46097654321 (-10)) ].

Definition scenario3_expected : json :=
  JList [ JFloat (float_of_decimal true 74082123 (-6));
          JFloat (float_of_decimal false 4609765 (-6)) ].

(** [[1.9999999, 0.0078125, 0.0234375, -0.0078125]]: the first number
    rounds upwards, and the others, multiples of [1/128], lie exactly half
    way between two numbers of six decimals.  Rounded, they are
    [[2.0, 0.007812, 0.023438, -0.007812]]. *)
Definition half_way_input : json :=
  JList [ JFloat (float_of_decimal false 19999999 (-7));
          JFloat (float_of_decimal false 78125 (-7));
          JFloat (float_of_decimal false 234375 (-7));
          JFloat (float_of_decimal true 78125 (-7)) ].

Definition half_way_expected : json :=
  JList [ JFloat (float_of_decimal false 2 0);
          JFloat (float_of_decimal false 7812 (-6));
          JFloat (float_of_decimal false 23438 (-6));
          JFloat (float_of_decimal true 7812 (-6)) ].

(** A FeatureCollection with coordinate-reference metadata and two
    features, the second with null [properties] and null [geometry]. *)
Definition sample_crs : json :=
  JObj [ ("type", JStr "name");
         ("properties", JObj [ ("name", JStr "EPSG:4326") ]) ].

Definition sample_null_feature : dict :=
  [ ("type", JStr "Feature"); ("properties", JNull); ("geometry", JNull) ].

Definition sample_features : list json :=
  [ JObj [ ("type", JStr "Feature");
           ("properties",
            JObj [ ("species", JStr "Ceiba pentandra");
                   ("NUM_DTO", JStr "7");
                   ("diameter", JStr "") ]);
           ("geometry",
            JObj [ ("type", JStr "Point");
                   ("coordinates", scenario3_input) ]) ];
    JObj sample_null_feature ].

Definition sample_fields : dict :=
  [ ("type", JStr "FeatureCollection");
    ("crs", sample_crs);
    ("features", JList sample_features) ].

Definition sample_document : json := JObj sample_fields.

(** The same document after the transform. *)
Definition sample_features_transformed : list json :=
  [ JObj [ ("type", JStr "Feature");
           ("properties", JObj [ ("sn", JStr "Ceiba pentandra") ]);
           ("geometry",
            JObj [ ("type", JStr "Point");
                   ("coordinates", scenario3_expected) ]) ];
    JObj [ ("type", JStr "Feature");
           ("properties", JObj []);
           ("geometry", JNull) ] ].

Definition sample_document_transformed : json :=
  JObj [ ("type", JStr "FeatureCollection");
         ("crs", sample_crs);
         ("features", JList sample_features_transformed) ].

(** A host whose [json.load] reads the three bytes [{ }] as the empty
    object and whose compact [json.dump] writes it as [{}]. *)
Definition toy_load (text : string) : result json :=
  if String.eqb text "{ }" then Ok (JObj []) else Raise JSONDecodeError.

Definition toy_dump (data : json) : string :=
  match data with
  | JObj [] => "{}"
  | _ => "null"
  end.

Definition toy_world : world :=
  mkWorld true [("district_01.geojson", "{ }")] [].

(** A directory that exists and holds no district file, and one that does
    not exist. *)
Definition world_without_districts : world :=
  mkWorld true [("README.md", "districts"); ("district.geojson", "{}")] [].

Definition world_without_directory : world := mkWorld false [] [].

(** ** More predicates on inputs *)

(** The short keys that the table can produce. *)
Definition short_keys : list string :=
  flat_map (fun e : string * option string =>
              match snd e with
              | Some short => [short]
              | None => []
              end) PROPERTY_MAP.

(** What [round] accepts among the values of a document. *)
Definition is_round_leaf (v : json) : bool :=
  match v with JInt _ | JFloat _ | JBool _ => true | _ => false end.

Definition is_int (v : json) : bool :=
  match v with JInt _ => true | _ => false end.

(** In every list of the tree the elements are all lists or all leaves. *)
Fixpoint level_consistent (t : json) : bool :=
  match t with
  | JList l =>
      (forallb is_list l || forallb (fun c => negb (is_list c)) l) &&
      forallb level_consistent l
  | _ => true
  end.

(** Induction on a value with the hypothesis for every element of a list. *)
Section JsonInduction.

Variable P : json -> Prop.
Hypothesis Hnull : P JNull.
Hypothesis Hbool : forall b, P (JBool b).
Hypothesis Hint : forall z, P (JInt z).
Hypothesis Hfloat : forall f, P (JFloat f).
Hypothesis Hstr : forall s, P (JStr s).
Hypothesis Hlist : forall l, Forall P l -> P (JList l).
Hypothesis Hobj : forall kvs, Forall (fun kv => P (snd kv)) kvs -> P (JObj kvs).

Fixpoint json_ind_nested (t : json) : P t :=
  match t with
  | JNull => Hnull
  | JBool b => Hbool b
  | JInt z => Hint z
  | JFloat f => Hfloat f
  | JStr s => Hstr s
  | JList l =>
      Hlist l
        ((fix go (l : list json) : Forall P l :=
            match l with
            | [] => Forall_nil P
            | x :: l' => Forall_cons x (json_ind_nested x) (go l')
            end) l)
  | JObj kvs =>
      Hobj kvs
        ((fix go (kvs : list (string * json))
            : Forall (fun kv => P (snd kv)) kvs :=
            match kvs with
            | [] => Forall_nil _
            | kv :: kvs' =>
                Forall_cons kv (json_ind_nested (snd kv)) (go kvs')
            end) kvs)
  end.

End JsonInduction.

(** Documents as GeoJSON has them: [features] absent or a list of objects;
    in a feature, [properties] absent, null or an object, and [geometry]
    absent, null or an object whose [coordinates], when present, are a
    nested list of numbers without an empty list. *)
Definition wf_coordinates (coords : json) : bool :=
  is_list coords && no_empty_list coords && level_consistent coords &&
  forallb is_round_leaf (leaves coords) && forallb is_binary64 (leaves coords).

Definition wf_geometry (geometry : json) : bool :=
  match geometry with
  | JNull => true
  | JObj gd =>
      match dict_get "coordinates" gd with
      | Some coords => wf_coordinates coords
      | None => true
      end
  | _ => false
  end.

Definition wf_properties (props : json) : bool :=
  match props with JNull | JObj _ => true | _ => false end.

Definition wf_feature (feature : json) : bool :=
  match feature with
  | JObj f =>
      match dict_get "properties" f with
      | Some props => wf_properties props
      | None => true
      end &&
      match dict_get "geometry" f with
      | Some geometry => wf_geometry geometry
      | None => true
      end
  | _ => false
  end.

Definition wf_document (data : json) : bool :=
  match data with
  | JObj kvs =>
      match dict_get "features" kvs with
      | Some (JList features) => forallb wf_feature features
      | Some _ => false
      | None => true
      end
  | _ => false
  end.

(** The files announced by a "Compressing ..." line, in the order of the
    trace. *)
Definition compressed_names (tr : list event) : list string :=
  flat_map (fun e => match e with
                     | Printed (MsgCompressing name) => [name]
                     | _ => []
                     end) tr.

(** The paths written to, in the order of the trace. *)
Definition written_paths (tr : list event) : list string :=
  flat_map (fun e => match e with
                     | WriteFile path _ => [path]
                     | _ => []
                     end) tr.

(** More sample inputs: a properties mapping, trees that are not nested
    uniformly or hold ints only, a feature, and a directory with two district
    files and one other file, before and after a run. *)
Definition sample_props : dict :=
  [ ("height", JInt 3); ("ASSETNUM", JInt 1); ("note", JStr "tall");
    ("x", JNull); ("species", JStr "a") ].

Definition sample_mixed_tree : json :=
  JList [ JList [ JInt 1; JFloat (float_of_decimal false 25 (-1)) ];
          JList [ JList [ JBool true ] ] ].

Definition sample_mixed_tree_rounded : json :=
  JList [ JList [ JInt 1; JFloat (float_of_decimal false 25 (-1)) ];
          JList [ JList [ JInt 1 ] ] ].

Definition sample_int_tree : json :=
  JList [ JList [ JInt 1; JInt 2 ]; JList [ JInt 3; JInt 4 ] ].

Definition sample_point_geometry : dict :=
  [ ("type", JStr "Point"); ("coordinates", scenario3_input) ].

Definition sample_point_feature : dict :=
  [ ("type", JStr "Feature"); ("id", JInt 7);
    ("properties", JObj sample_props);
    ("geometry", JObj sample_point_geometry) ].

Definition sample_point_feature_processed : json :=
  JObj [ ("type", JStr "Feature"); ("id", JInt 7);
         ("properties",
          JObj [ ("h", JInt 3); ("note", JStr "tall"); ("sn", JStr "a") ]);
         ("geometry",
          JObj [ ("type", JStr "Point");
                 ("coordinates", scenario3_expected) ]) ].

Definition sample_world : world :=
  mkWorld true
          [ ("district_02.geojson", "{ }"); ("notes.txt", "keep");
            ("district_01.geojson", "{ }") ] [].

Definition sample_world_after : world :=
  Eval vm_compute in
    match main toy_load toy_dump sample_world with
    | Ok w' => w'
    | Raise _ => sample_world
    end.

(** The same directory with a second district file cut short, which
    [toy_load] rejects. *)
Definition sample_world_rejected : world :=
  mkWorld true
          [ ("district_02.geojson", "{ "); ("notes.txt", "keep");
            ("district_01.geojson", "{ }") ] [].

Definition toy_world_copied : world :=
  Eval vm_compute in
    match compress_geojson toy_load toy_dump
            "district_01.geojson" "out.geojson" toy_world with
    | Ok (w', _) => w'
    | Raise _ => toy_world
    end.

(** * Properties *)

(** ** Dicts *)

Lemma dict_get_set_eq (k : string) (v : json) (d : dict) :
  dict_get k (dict_set k v d) = Some v.
Proof.
  induction d as [|[k' v'] d IH]; simpl.
  - now rewrite String.eqb_refl.
  - destruct (String.eqb_spec k k') as [->|Hne]; simpl.
    + now rewrite String.eqb_refl.
    + destruct (String.eqb_spec k k'); [contradiction | exact IH].
Qed.

Lemma dict_get_set_ne (k k' : string) (v : json) (d : dict) :
  k <> k' -> dict_get k (dict_set k' v d) = dict_get k d.
Proof.
  intros Hne. induction d as [|[k0 v0] d IH]; simpl.
  - destruct (String.eqb_spec k k'); [contradiction | reflexivity].
  - destruct (String.eqb_spec k' k0) as [->|Hne0]; simpl.
    + destruct (String.eqb_spec k k0); [contradiction | reflexivity].
    + destruct (String.eqb_spec k k0); [reflexivity | exact IH].
Qed.

Lemma dict_get_app (k : string) (d1 d2 : dict) :
  dict_get k (d1 ++ d2) =
  match dict_get k d1 with
  | Some v => Some v
  | None => dict_get k d2
  end.
Proof.
  induction d1 as [|[k' v'] d1 IH]; simpl; [reflexivity|].
  destruct (String.eqb k k'); [reflexivity | exact IH].
Qed.

Lemma dict_get_None_keys (k : string) (d : dict) :
  dict_get k d = None <-> ~ In k (keys d).
Proof.
  induction d as [|[k' v'] d IH]; simpl.
  - tauto.
  - destruct (String.eqb_spec k k') as [->|Hne].
    + split; [discriminate | intros H; exfalso; apply H; now left].
    + rewrite IH. split.
      * intros H [E|Hin]; [now apply Hne | now apply H].
      * intros H Hin. apply H. now right.
Qed.

Lemma keys_dict_set (k : string) (v : json) (d : dict) :
  keys (dict_set k v d) = if dict_mem k d then keys d else keys d ++ [k].
Proof.
  unfold dict_mem. induction d as [|[k' v'] d IH]; simpl; [reflexivity|].
  destruct (String.eqb_spec k k') as [->|Hne]; simpl; [reflexivity|].
  rewrite IH. now destruct (dict_get k d).
Qed.

Lemma NoDup_keys_dict_set (k : string) (v : json) (d : dict) :
  NoDup (keys d) -> NoDup (keys (dict_set k v d)).
Proof.
  intros Hnd. rewrite keys_dict_set. unfold dict_mem.
  destruct (dict_get k d) eqn:E; [exact Hnd|].
  apply dict_get_None_keys in E.
  apply NoDup_rev in Hnd. rewrite <- (rev_involutive (keys d ++ [k])).
  apply NoDup_rev. rewrite rev_app_distr. simpl. constructor.
  - now rewrite <- in_rev.
  - exact Hnd.
Qed.

(** A dict whose keys are all new and distinct is appended unchanged. *)
Lemma dict_set_fresh (k : string) (v : json) (d : dict) :
  ~ In k (keys d) -> dict_set k v d = d ++ [(k, v)].
Proof.
  induction d as [|[k' v'] d IH]; simpl; intros Hin; [reflexivity|].
  destruct (String.eqb_spec k k') as [->|Hne].
  - exfalso. apply Hin. now left.
  - f_equal. apply IH. intros H. apply Hin. now right.
Qed.

(** ** The Property Compressor *)

Lemma compress_step_emit (acc : dict) (kv : string * json) :
  compress_step acc kv =
  match spec_emit kv with
  | Some out => dict_set (fst out) (snd out) acc
  | None => acc
  end.
Proof.
  destruct kv as [key value]. unfold compress_step, spec_emit.
  cbn [fst snd]. generalize (map_lookup key PROPERTY_MAP) as hit.
  intros hit.
  destruct value as [| b | z | f | s | l | kvs]; cbn;
    try (destruct hit as [[sk|]|]; reflexivity).
  destruct s as [|a s]; cbn; [reflexivity|].
  destruct hit as [[sk|]|]; reflexivity.
Qed.

Lemma fold_compress_step (p : dict) (acc : dict) :
  fold_left compress_step p acc =
  fold_left (fun m kv => dict_set (fst kv) (snd kv) m) (spec_emitted p) acc.
Proof.
  revert acc. induction p as [|kv p IH]; intros acc; simpl; [reflexivity|].
  rewrite compress_step_emit.
  destruct (spec_emit kv) as [out|]; simpl; apply IH.
Qed.

Lemma compress_entries_spec (p : dict) : compress_entries p = spec_compress p.
Proof. apply fold_compress_step. Qed.

Lemma fold_set_NoDup (l : list (string * json)) (acc : dict) :
  NoDup (keys acc) ->
  NoDup (keys (fold_left (fun m kv => dict_set (fst kv) (snd kv) m) l acc)).
Proof.
  revert acc. induction l as [|[k v] l IH]; intros acc H; simpl; [exact H|].
  apply IH. now apply NoDup_keys_dict_set.
Qed.

Lemma fold_set_get (k : string) (l : list (string * json)) (acc : dict) :
  dict_get k (fold_left (fun m kv => dict_set (fst kv) (snd kv) m) l acc) =
  match dict_get k (rev l) with
  | Some v => Some v
  | None => dict_get k acc
  end.
Proof.
  revert acc. induction l as [|[k' v'] l IH]; intros acc; simpl; [reflexivity|].
  rewrite IH, dict_get_app. destruct (dict_get k (rev l)); [reflexivity|].
  simpl. destruct (String.eqb_spec k k') as [->|Hne].
  - apply dict_get_set_eq.
  - now apply dict_get_set_ne.
Qed.

Lemma compress_properties_dict (p : dict) :
  compress_properties (JObj p) = Ok (JObj (compress_entries p)).
Proof. destruct p; reflexivity. Qed.

(** C1. For every properties mapping [p], the Property Compressor returns
    the mapping that the specification describes: the entries of [p] are
    gone through in order, an entry with a null or empty-string value is
    left out, so is one whose key the table maps to the removal marker, any
    other is emitted under the short key of the table or, when the table
    has none, under its own key; the result holds each output key once,
    with the value of the last entry emitted under it. *)
Theorem C1_compress_properties_refines_spec (p : dict) :
  compress_properties (JObj p) = Ok (JObj (spec_compress p)) /\
  NoDup (keys (spec_compress p)) /\
  (forall k : string, dict_get k (spec_compress p) = last_emitted k p) /\
  (forall kv : string * json,
      spec_emit kv =
      if is_none (snd kv) || is_empty_str (snd kv) then None
      else match map_lookup (fst kv) PROPERTY_MAP with
           | Some None => None
           | Some (Some short) => Some (short, snd kv)
           | None => Some (fst kv, snd kv)
           end).
Proof.
  split; [|split; [|split]].
  - rewrite compress_properties_dict. now rewrite compress_entries_spec.
  - apply fold_set_NoDup. constructor.
  - intros k. unfold spec_compress, last_emitted. rewrite fold_set_get.
    now destruct (dict_get k (rev (spec_emitted p))).
  - intros [k v]. unfold spec_emit. cbn [fst snd].
    generalize (map_lookup k PROPERTY_MAP) as hit. intros hit.
    destruct v as [| b | z | f | s | l | kvs]; cbn; try reflexivity.
    destruct s; reflexivity.
Qed.

(** ** Scenario 1 and the rename table *)

(** C3. On the input of scenario 1 the code removes [ASSETNUM] and renames
    [height] to [h], but it leaves the scientific-name entry under its long
    key: the table spells that key with other bytes, so the lookup misses and
    the result is not the expected [{"sn": ..., "h": 30.2}].  With the key
    spelled as the table spells it, the result is the expected one. *)
Theorem C3_scenario1_scientific_name_not_renamed :
  compress_properties (JObj scenario1_input) =
    Ok (JObj [ (key_nombre_cientifico_utf8, JStr "Ceiba pentandra");
               ("h", JFloat float_30_2) ]) /\
  compress_properties (JObj scenario1_input) <> Ok (JObj scenario1_expected) /\
  map_lookup key_nombre_cientifico_utf8 PROPERTY_MAP = None /\
  compress_properties
    (JObj [ (key_nombre_cientifico, JStr "Ceiba pentandra");
            ("ASSETNUM", JStr "12345");
            ("height", JFloat float_30_2) ]) = Ok (JObj scenario1_expected).
Proof.
  split; [reflexivity|]. split; [|split; reflexivity].
  intros H. vm_compute in H. discriminate H.
Qed.

(** ** Idempotence *)

Lemma map_lookup_In (k : string) (s : option string)
      (m : list (string * option string)) :
  map_lookup k m = Some s -> In (k, s) m.
Proof.
  induction m as [|[k' s'] m IH]; simpl; [discriminate|].
  destruct (String.eqb_spec k k') as [->|Hne].
  - intros [= ->]. now left.
  - intros H. right. now apply IH.
Qed.

(** No short key of the table is one of its long keys. *)
Lemma short_keys_not_long (k short : string) :
  map_lookup k PROPERTY_MAP = Some (Some short) ->
  map_lookup short PROPERTY_MAP = None.
Proof.
  intros H. apply map_lookup_In in H.
  assert (Hall : forallb
            (fun e : string * option string =>
               match snd e with
               | Some sk =>
                   match map_lookup sk PROPERTY_MAP with
                   | None => true
                   | Some _ => false
                   end
               | None => true
               end) PROPERTY_MAP = true) by reflexivity.
  rewrite forallb_forall in Hall. specialize (Hall _ H). cbn [snd] in Hall.
  now destruct (map_lookup short PROPERTY_MAP).
Qed.

(** An emitted entry is emitted as it is when compressed again. *)
Lemma spec_emit_fixed (kv out : string * json) :
  spec_emit kv = Some out -> spec_emit out = Some out.
Proof.
  destruct kv as [k v]. destruct out as [k' v']. unfold spec_emit.
  cbn [fst snd].
  destruct (map_lookup k PROPERTY_MAP) as [[short|]|] eqn:E.
  - apply short_keys_not_long in E.
    destruct v as [| b | z | f | s | l | kvs]; try discriminate;
      try (intros [= <- <-]; rewrite E; reflexivity).
    destruct s; [discriminate|]. intros [= <- <-]. now rewrite E.
  - destruct v as [| b | z | f | s | l | kvs]; try discriminate.
    destruct s; discriminate.
  - destruct v as [| b | z | f | s | l | kvs]; try discriminate;
      try (intros [= <- <-]; rewrite E; reflexivity).
    destruct s; [discriminate|]. intros [= <- <-]. now rewrite E.
Qed.

Lemma spec_emit_value (kv out : string * json) :
  spec_emit kv = Some out ->
  is_none (snd out) || is_empty_str (snd out) = false.
Proof.
  destruct kv as [k v]. destruct out as [k' v']. unfold spec_emit.
  cbn [fst snd]. generalize (map_lookup k PROPERTY_MAP) as hit. intros hit.
  destruct v as [| b | z | f | s | l | kvs]; try discriminate;
    try (destruct hit as [[short|]|]; try discriminate;
         intros [= <- <-]; reflexivity).
  destruct s; [discriminate|].
  destruct hit as [[short|]|]; try discriminate; intros [= <- <-]; reflexivity.
Qed.

Lemma Forall_dict_set (Q : string * json -> Prop) (k : string) (v : json)
      (d : dict) :
  Q (k, v) -> Forall Q d -> Forall Q (dict_set k v d).
Proof.
  intros Hq. induction 1 as [|[k' v'] d Hx Hd IH]; simpl.
  - constructor; [exact Hq | constructor].
  - destruct (String.eqb_spec k k') as [<-|Hne]; constructor; auto.
Qed.

Lemma fold_set_Forall (Q : string * json -> Prop) (l : list (string * json))
      (acc : dict) :
  Forall Q l -> Forall Q acc ->
  Forall Q (fold_left (fun m kv => dict_set (fst kv) (snd kv) m) l acc).
Proof.
  intros Hl. revert acc. induction Hl as [|[k v] l Hx Hl IH]; intros acc Hacc.
  - exact Hacc.
  - simpl. apply IH. now apply Forall_dict_set.
Qed.

Lemma spec_emitted_Forall (Q : string * json -> Prop) (p : dict) :
  (forall kv out, spec_emit kv = Some out -> Q out) ->
  Forall Q (spec_emitted p).
Proof.
  intros H. induction p as [|kv p IH]; simpl; [constructor|].
  destruct (spec_emit kv) as [out|] eqn:E; [|exact IH].
  constructor; [now apply (H kv) | exact IH].
Qed.

Lemma spec_emitted_fixed (d : dict) :
  Forall (fun e => spec_emit e = Some e) d -> spec_emitted d = d.
Proof.
  induction 1 as [|e d He Hd IH]; simpl; [reflexivity|].
  rewrite He. now f_equal.
Qed.

Lemma fold_set_distinct (l : list (string * json)) (acc : dict) :
  NoDup (keys (acc ++ l)) ->
  fold_left (fun m kv => dict_set (fst kv) (snd kv) m) l acc = acc ++ l.
Proof.
  revert acc. induction l as [|[k v] l IH]; intros acc Hnd; simpl.
  - now rewrite app_nil_r.
  - assert (Hfresh : ~ In k (keys acc)).
    { unfold keys in *. rewrite map_app in Hnd. simpl in Hnd.
      apply NoDup_remove_2 in Hnd. intros Hin. apply Hnd.
      apply in_or_app. now left. }
    rewrite (dict_set_fresh k v acc Hfresh).
    rewrite IH; rewrite <- app_assoc; [reflexivity | exact Hnd].
Qed.

Lemma spec_compress_fixed (d : dict) :
  NoDup (keys d) -> Forall (fun e => spec_emit e = Some e) d ->
  spec_compress d = d.
Proof.
  intros Hnd Hall. unfold spec_compress. rewrite (spec_emitted_fixed d Hall).
  now apply (fold_set_distinct d []).
Qed.

Lemma compress_entries_idempotent (p : dict) :
  compress_entries (compress_entries p) = compress_entries p.
Proof.
  rewrite !compress_entries_spec. apply spec_compress_fixed.
  - apply fold_set_NoDup. constructor.
  - apply fold_set_Forall; [|constructor].
    apply spec_emitted_Forall. intros kv out. apply spec_emit_fixed.
Qed.

(** C7. The Property Compressor is idempotent on its own output: for every
    properties mapping [p], compressing the compressed mapping gives the
    compressed mapping again.  The two reasons are part of the statement:
    no key of the output is a long key of the table (a short key of the
    table never is one), and no value of the output is null or the empty
    string. *)
Theorem C7_compress_properties_idempotent (p : dict) :
  (r <- compress_properties (JObj p) ;; compress_properties r) =
    compress_properties (JObj p) /\
  (exists q : dict,
      compress_properties (JObj p) = Ok (JObj q) /\
      compress_properties (JObj q) = Ok (JObj q) /\
      Forall (fun e => map_lookup (fst e) PROPERTY_MAP = None) q /\
      Forall (fun e => is_none (snd e) || is_empty_str (snd e) = false) q) /\
  (forall k short : string,
      map_lookup k PROPERTY_MAP = Some (Some short) ->
      map_lookup short PROPERTY_MAP = None) /\
  Forall (fun short => map_lookup short PROPERTY_MAP = None)
         ["sn"; "cn"; "d"; "h"; "dt"; "nb"].
Proof.
  assert (Hfix : compress_properties (JObj (compress_entries p)) =
                 Ok (JObj (compress_entries p))).
  { rewrite compress_properties_dict. now rewrite compress_entries_idempotent. }
  split; [|split; [|split]].
  - rewrite compress_properties_dict. cbn [bind]. exact Hfix.
  - exists (compress_entries p). split; [apply compress_properties_dict|].
    split; [exact Hfix|]. split.
    + rewrite compress_entries_spec. apply fold_set_Forall; [|constructor].
      apply spec_emitted_Forall. intros [k v] [k' v']. unfold spec_emit.
      cbn [fst snd]. destruct (map_lookup k PROPERTY_MAP) as [[short|]|] eqn:E.
      * apply short_keys_not_long in E.
        destruct v as [| b | z | f | s | l | kvs]; try discriminate;
          try (intros [= <- <-]; exact E).
        destruct s; [discriminate|]. intros [= <- <-]. exact E.
      * destruct v as [| b | z | f | s | l | kvs]; try discriminate.
        destruct s; discriminate.
      * destruct v as [| b | z | f | s | l | kvs]; try discriminate;
          try (intros [= <- <-]; exact E).
        destruct s; [discriminate|]. intros [= <- <-]. exact E.
    + rewrite compress_entries_spec. apply fold_set_Forall; [|constructor].
      apply spec_emitted_Forall. intros kv out. apply spec_emit_value.
  - apply short_keys_not_long.
  - repeat constructor.
Qed.

(** ** List comprehensions *)

Lemma mapM_ext_in {A B : Type} (f g : A -> result B) (l : list A) :
  (forall x, In x l -> f x = g x) -> mapM f l = mapM g l.
Proof.
  induction l as [|x l IH]; intros H; simpl; [reflexivity|].
  rewrite (H x (or_introl eq_refl)).
  rewrite IH; [reflexivity|]. intros y Hy. apply H. now right.
Qed.

Lemma mapM_Ok_Forall2 {A B : Type} (f : A -> result B) (l : list A)
      (l' : list B) :
  mapM f l = Ok l' -> Forall2 (fun x y => f x = Ok y) l l'.
Proof.
  revert l'. induction l as [|x l IH]; intros l'; simpl.
  - intros [= <-]. constructor.
  - destruct (f x) as [y|e] eqn:Ex; simpl; [|discriminate].
    destruct (mapM f l) as [ys|e]; simpl; [|discriminate].
    intros [= <-]. constructor; [exact Ex | now apply IH].
Qed.

Lemma mapM_total {A B : Type} (f : A -> result B) (l : list A) :
  (forall x, In x l -> exists y, f x = Ok y) -> exists l', mapM f l = Ok l'.
Proof.
  induction l as [|x l IH]; intros H; simpl.
  - now exists [].
  - destruct (H x (or_introl eq_refl)) as [y ->].
    destruct IH as [ys ->]; [intros z Hz; apply H; now right|].
    simpl. now exists (y :: ys).
Qed.

(** ** round_coordinates *)

(** The function as the script writes it: look at the first element, then
    map over the elements one way or the other. *)
Lemma round_coordinates_eqn (precision : Z) (coords : json) :
  round_coordinates precision coords =
  (first <- getitem0 coords ;;
   items <- py_iter coords ;;
   if is_list first then
     cs <- mapM (round_coordinates precision) items ;; Ok (JList cs)
   else
     cs <- mapM (py_round precision) items ;; Ok (JList cs)).
Proof.
  destruct coords as [| b | z | f | s | l | kvs]; try reflexivity.
  - destruct s; reflexivity.
  - destruct l as [|c l]; [reflexivity|]. destruct c; reflexivity.
Qed.

Lemma map_leaves_number (f : json -> result json) (v : json) :
  is_number v = true -> map_leaves f v = f v.
Proof. destruct v; simpl; intros H; try discriminate; reflexivity. Qed.

Lemma round_coordinates_uniform (precision : Z) (d : nat) (t : json) :
  uniform (S d) t = true -> no_empty_list t = true ->
  round_coordinates precision t = map_leaves (py_round precision) t.
Proof.
  revert t. induction d as [|d IH]; intros t Hu Hn.
  - destruct t as [| | | | | l |]; try discriminate Hu.
    destruct l as [|x l]; [discriminate Hn|].
    cbn [uniform] in Hu. rewrite forallb_forall in Hu.
    assert (Hx : is_number x = true) by (apply Hu; now left).
    rewrite round_coordinates_eqn. cbn [getitem0 py_iter bind map_leaves].
    replace (is_list x) with false by (destruct x; try discriminate Hx; reflexivity).
    f_equal. apply mapM_ext_in. intros y Hy.
    symmetry. apply map_leaves_number. now apply Hu.
  - destruct t as [| | | | | l |]; try discriminate Hu.
    destruct l as [|x l]; [discriminate Hn|].
    change (forallb (uniform (S d)) (x :: l) = true) in Hu.
    change (forallb no_empty_list (x :: l) = true) in Hn.
    rewrite forallb_forall in Hu, Hn.
    assert (Hx : is_list x = true).
    { specialize (Hu x (or_introl eq_refl)).
      destruct x; try discriminate Hu; reflexivity. }
    rewrite round_coordinates_eqn. cbn [getitem0 py_iter bind map_leaves].
    rewrite Hx. f_equal. apply mapM_ext_in. intros y Hy.
    apply IH; [now apply Hu | now apply Hn].
Qed.

Lemma py_round_number (precision : Z) (x y : json) :
  is_number x = true -> py_round precision x = Ok y -> is_number y = true.
Proof.
  destruct x as [| | z | f | | |]; try discriminate; intros _; simpl.
  - destruct (0 <=? precision)%Z; intros [= <-]; reflexivity.
  - destruct (float_round f precision); simpl; [|discriminate].
    intros [= <-]. reflexivity.
Qed.

Lemma shape_of_number (v : json) : is_number v = true -> shape_of v = Leaf.
Proof. destruct v; try discriminate; reflexivity. Qed.

Lemma leaves_number (v : json) : is_number v = true -> leaves v = [v].
Proof. destruct v; try discriminate; reflexivity. Qed.

Lemma map_leaves_shape (precision : Z) (d : nat) (t t' : json) :
  uniform d t = true ->
  map_leaves (py_round precision) t = Ok t' ->
  uniform d t' = true /\
  shape_of t' = shape_of t /\
  Forall2 (fun x y => py_round precision x = Ok y) (leaves t) (leaves t').
Proof.
  revert t t'. induction d as [|d IH]; intros t t' Hu Hr.
  - cbn [uniform] in Hu. rewrite (map_leaves_number _ _ Hu) in Hr.
    pose proof (py_round_number _ _ _ Hu Hr) as Hy.
    split; [exact Hy|]. split.
    + now rewrite !shape_of_number.
    + rewrite (leaves_number _ Hu), (leaves_number _ Hy).
      constructor; [exact Hr | constructor].
  - destruct t as [| | | | | l |]; try discriminate Hu.
    cbn [uniform] in Hu. cbn [map_leaves] in Hr.
    destruct (mapM (map_leaves (py_round precision)) l) as [l'|e] eqn:El;
      [|discriminate Hr].
    cbn [bind] in Hr. injection Hr as <-.
    apply mapM_Ok_Forall2 in El.
    cbn [uniform shape_of leaves].
    induction El as [|x y l l' Hxy _ IHl].
    + repeat split. constructor.
    + cbn [forallb] in Hu. apply andb_true_iff in Hu as [Hx Hl].
      destruct (IH _ _ Hx Hxy) as (Ux & Sx & Lx).
      destruct (IHl Hl) as (Ul & Sl & Ll).
      cbn [forallb map flat_map]. rewrite Ux, Ul. split; [reflexivity|].
      split.
      * injection Sl as Sl. now rewrite Sx, Sl.
      * now apply Forall2_app.
Qed.

(** ** The rounding primitive returns *)

Local Open Scope Z_scope.

Lemma round_half_even_bounds (p q : Z) :
  0 <= p -> 0 < q -> 0 <= round_half_even p q <= p / q + 1.
Proof.
  intros Hp Hq. unfold round_half_even.
  pose proof (Z.div_pos p q Hp Hq).
  destruct (2 * (p mod q) ?= q); [destruct (Z.even (p / q))| |]; lia.
Qed.

(** [round_half_even p q] is an integer nearest to [p / q], and the even
    one when [p / q] lies half way between two integers. *)
Lemma round_half_even_nearest (p q : Z) :
  0 < q ->
  2 * Z.abs (round_half_even p q * q - p) <= q /\
  (2 * Z.abs (round_half_even p q * q - p) = q ->
   Z.even (round_half_even p q) = true).
Proof.
  intros Hq. unfold round_half_even.
  pose proof (Z.div_mod p q ltac:(lia)) as Hdm.
  pose proof (Z.mod_pos_bound p q Hq) as Hm.
  destruct (Z.compare_spec (2 * (p mod q)) q) as [He|Hl|Hg].
  - destruct (Z.even (p / q)) eqn:Ev.
    + split; [nia | intros _; exact Ev].
    + split; [nia|]. intros _.
      rewrite Z.add_1_r, Z.even_succ, <- Z.negb_even. now rewrite Ev.
  - split; [nia | intros H; exfalso; nia].
  - split; [nia | intros H; exfalso; nia].
Qed.

Lemma round_half_even_le (p q k : Z) :
  0 < q -> p <= k * q -> round_half_even p q <= k.
Proof.
  intros Hq Hp. unfold round_half_even.
  assert (Hd : p / q <= k) by (apply Z.div_le_upper_bound; lia).
  pose proof (Z.div_mod p q ltac:(lia)) as Hdm.
  pose proof (Z.mod_pos_bound p q Hq) as Hm.
  destruct (Z.eq_dec (p / q) k) as [Hk|Hk].
  - assert (Hr : p mod q = 0) by nia.
    rewrite Hr. destruct (Z.compare_spec (2 * 0) q); lia.
  - destruct (2 * (p mod q) ?= q); [destruct (Z.even (p / q))| |]; lia.
Qed.

(** A ratio that does not exceed the largest binary64 is not rounded to an
    infinity. *)
Lemma nearest_binary64_finite (s s' : bool) (p q : Z) :
  0 < q -> 0 <= p -> p <= (2 ^ 53 - 1) * 2 ^ 971 * q ->
  nearest_binary64 s p q <> S754_infinity s'.
Proof.
  intros Hq Hp Hmax. unfold nearest_binary64.
  destruct (Z.eqb_spec p 0) as [|Hp0]; [discriminate|].
  assert (Hpow : 2 ^ 1024 = 2 ^ 53 * 2 ^ 971) by reflexivity.
  assert (He1 : Z.log2 p - Z.log2 q - 53 <= 971).
  { assert (Hle : p <= q * 2 ^ 1024).
    { rewrite Hpow. remember (2 ^ 971) as A eqn:EA.
      assert (0 < A) by (subst A; now apply Z.pow_pos_nonneg).
      change (2 ^ 53) with 9007199254740992 in *. nia. }
    apply Z.log2_le_mono in Hle.
    rewrite Z.log2_mul_pow2 in Hle by lia. lia. }
  set (e1 := Z.log2 p - Z.log2 q - 53) in *.
  assert (Hat : shift_ratio p q 971 = (p, q * 2 ^ 971)) by reflexivity.
  destruct (shift_ratio p q e1) as [p1 q1] eqn:E1.
  set (e2 := if q1 * 2 ^ 53 <=? p1 then e1 + 1 else e1).
  assert (He2 : e2 <= 971).
  { subst e2. destruct (Z.leb_spec (q1 * 2 ^ 53) p1) as [Hc|Hc]; [|exact He1].
    destruct (Z.eq_dec e1 971) as [Heq|Hneq]; [|lia].
    exfalso. rewrite Heq, Hat in E1. injection E1 as <- <-.
    remember (2 ^ 971) as A eqn:EA.
    assert (0 < A) by (subst A; now apply Z.pow_pos_nonneg).
    change (2 ^ 53) with 9007199254740992 in *. nia. }
  destruct (shift_ratio p q (Z.max e2 (-1074))) as [p2 q2] eqn:E2.
  set (m := round_half_even p2 q2).
  assert (Hm : Z.max e2 (-1074) = 971 -> m <= 2 ^ 53 - 1).
  { intros HE. rewrite HE, Hat in E2. injection E2 as <- <-.
    apply round_half_even_le.
    - assert (0 < 2 ^ 971) by now apply Z.pow_pos_nonneg. nia.
    - lia. }
  destruct (Z.eqb_spec m (2 ^ 53)) as [Em|Em].
  - destruct (2 ^ 52 =? 0); [discriminate|].
    destruct (Z.ltb_spec 971 (Z.max e2 (-1074) + 1)); [|discriminate].
    assert (HE : Z.max e2 (-1074) = 971) by lia.
    specialize (Hm HE). lia.
  - destruct (m =? 0); [discriminate|].
    destruct (Z.ltb_spec 971 (Z.max e2 (-1074))); [lia | discriminate].
Qed.

Lemma shift_ratio_bounds (m : positive) (e A : Z) :
  (forall k, 0 <= k <= 971 -> 1 <= 2 ^ k <= A) -> e <= 971 ->
  let (p, q) := shift_ratio (Z.pos m) 1 (- e) in
  0 <= p /\ 1 <= q /\ p <= Z.pos m * A * q.
Proof.
  intros Hmono He. unfold shift_ratio.
  destruct (Z.leb_spec 0 (- e)).
  - rewrite Z.mul_1_l.
    pose proof (Z.pow_pos_nonneg 2 (- e) ltac:(lia) ltac:(lia)) as Hpos.
    specialize (Hmono 0 ltac:(lia)). change (2 ^ 0) with 1 in Hmono.
    repeat split; try lia.
    assert (Hone : 1 * 1 <= A * 2 ^ (- e))
      by (apply Z.mul_le_mono_nonneg; lia).
    rewrite <- Z.mul_assoc. nia.
  - specialize (Hmono (- - e) ltac:(lia)). repeat split; try lia.
    rewrite Z.mul_1_r. apply Z.mul_le_mono_nonneg_l; lia.
Qed.

(** Rounding a binary64 to six decimals never raises. *)
Lemma float_round_returns (s : bool) (m : positive) (e : Z) :
  Z.pos m < 2 ^ 53 -> e <= 971 ->
  exists r, float_round (S754_finite s m e) 6 = Ok r.
Proof.
  intros Hm He. unfold float_round.
  change (323 <? 6) with false. change (6 <? -308) with false.
  change (0 <=? 6) with true. cbv iota.
  assert (Hmono : forall k, 0 <= k <= 971 -> 1 <= 2 ^ k <= 2 ^ 971).
  { intros k Hk. split.
    - change 1 with (2 ^ 0). apply Z.pow_le_mono_r; lia.
    - apply Z.pow_le_mono_r; lia. }
  pose proof (shift_ratio_bounds m e _ Hmono He) as Hb.
  destruct (shift_ratio (Z.pos m) 1 (- e)) as [p q].
  destruct Hb as (Hp0 & Hq & Hp).
  set (n := round_half_even (p * 10 ^ 6) q).
  unfold float_of_decimal. change (0 <=? - (6)) with false. cbv iota.
  change (10 ^ (- - (6))) with 1000000.
  destruct (nearest_binary64 s n 1000000) eqn:R; eauto.
  exfalso. revert R. apply nearest_binary64_finite; [lia | |].
  - apply round_half_even_bounds; lia.
  - apply round_half_even_le; [lia|].
    remember (2 ^ 971) as A eqn:EA.
    assert (0 < A) by (specialize (Hmono 0); lia).
    change (10 ^ 6) with 1000000. change (2 ^ 53) with 9007199254740992 in *.
    nia.
Qed.

Lemma py_round_returns (x : json) :
  is_number x = true -> is_binary64 x = true ->
  exists y, py_round default_precision x = Ok y.
Proof.
  destruct x as [| | z | f | | |]; try discriminate; intros _ Hr.
  - now exists (JInt z).
  - unfold py_round, default_precision. destruct f as [s | s | | s m e].
    + now exists (JFloat (S754_zero s)).
    + now exists (JFloat (S754_infinity s)).
    + now exists (JFloat S754_nan).
    + cbn [is_binary64] in Hr. apply andb_true_iff in Hr as [Hm He].
      apply Z.ltb_lt in Hm. apply Z.leb_le in He.
      destruct (float_round_returns s m e Hm He) as [r ->].
      now exists (JFloat r).
Qed.

Local Close Scope Z_scope.

Lemma map_leaves_returns (d : nat) (t : json) :
  uniform d t = true -> Forall (fun v => is_binary64 v = true) (leaves t) ->
  exists t', map_leaves (py_round default_precision) t = Ok t'.
Proof.
  revert t. induction d as [|d IH]; intros t Hu Hr.
  - cbn [uniform] in Hu. rewrite (map_leaves_number _ _ Hu).
    rewrite (leaves_number _ Hu) in Hr. inversion Hr; subst.
    now apply py_round_returns.
  - destruct t as [| | | | | l |]; try discriminate Hu.
    cbn [uniform] in Hu. cbn [leaves] in Hr. cbn [map_leaves].
    rewrite forallb_forall in Hu.
    destruct (mapM_total (map_leaves (py_round default_precision)) l)
      as [l' ->].
    + intros x Hx. apply IH; [now apply Hu|].
      rewrite Forall_forall in *. intros v Hv. apply Hr.
      apply in_flat_map. now exists x.
    + now exists (JList l').
Qed.

(** ** What the rounding primitive returns *)

Local Open Scope Z_scope.

Lemma half_even_nearest_iff (n num den : Z) :
  half_even_nearest n num den = true <->
  2 * Z.abs (n * den - num) <= den /\
  (2 * Z.abs (n * den - num) = den -> Z.even n = true).
Proof.
  unfold half_even_nearest. cbv zeta.
  rewrite orb_true_iff, andb_true_iff, Z.ltb_lt, Z.eqb_eq. split.
  - intros [Hlt | [Heq Hev]].
    + split; [lia | intros; lia].
    + split; [lia | intros _; exact Hev].
  - intros [Hle Hev].
    destruct (Z.eq_dec (2 * Z.abs (n * den - num)) den) as [Heq | Hne].
    + right. split; [exact Heq | exact (Hev Heq)].
    + left. lia.
Qed.

(** Round-half-to-even picks one integer: two integers that both qualify
    are equal. *)
Lemma half_even_nearest_unique (n1 n2 num den : Z) :
  0 < den ->
  half_even_nearest n1 num den = true ->
  half_even_nearest n2 num den = true -> n1 = n2.
Proof.
  intros Hden H1 H2.
  apply half_even_nearest_iff in H1 as [L1 E1].
  apply half_even_nearest_iff in H2 as [L2 E2].
  assert (Hd : n1 = n2 \/ n2 = n1 + 1 \/ n1 = n2 + 1) by nia.
  destruct Hd as [Heq | [Heq | Heq]]; [exact Heq | |]; exfalso.
  - assert (T1 : 2 * Z.abs (n1 * den - num) = den) by nia.
    assert (T2 : 2 * Z.abs (n2 * den - num) = den) by nia.
    specialize (E1 T1). specialize (E2 T2).
    rewrite Heq, Z.add_1_r, Z.even_succ, <- Z.negb_even, E1 in E2.
    discriminate E2.
  - assert (T1 : 2 * Z.abs (n1 * den - num) = den) by nia.
    assert (T2 : 2 * Z.abs (n2 * den - num) = den) by nia.
    specialize (E1 T1). specialize (E2 T2).
    rewrite Heq, Z.add_1_r, Z.even_succ, <- Z.negb_even, E2 in E1.
    discriminate E1.
Qed.

Lemma round_half_even_is_nearest (p q : Z) :
  0 < q -> half_even_nearest (round_half_even p q) p q = true.
Proof.
  intros Hq. apply half_even_nearest_iff.
  exact (round_half_even_nearest p q Hq).
Qed.

(** The fraction that [float_round] rounds at six digits is the exact value
    of the float multiplied by [10^6]. *)
Lemma times_million_shift_ratio (m : positive) (e : Z) :
  times_million m e =
  (fst (shift_ratio (Z.pos m) 1 (- e)) * 10 ^ 6,
   snd (shift_ratio (Z.pos m) 1 (- e))).
Proof.
  unfold times_million, shift_ratio.
  destruct (Z.leb_spec 0 e) as [He | He];
    destruct (Z.leb_spec 0 (- e)) as [Hn | Hn]; cbn [fst snd].
  - assert (e = 0) by lia. subst e.
    change (- 0) with 0. change (2 ^ 0) with 1.
    now rewrite Z.mul_1_r, Z.mul_1_l.
  - now rewrite Z.opp_involutive.
  - now rewrite Z.mul_1_l.
  - lia.
Qed.

Lemma times_million_pos (m : positive) (e : Z) :
  0 < snd (times_million m e).
Proof.
  unfold times_million. destruct (0 <=? e) eqn:He; cbn [snd]; [lia|].
  apply Z.leb_gt in He. apply Z.pow_pos_nonneg; lia.
Qed.

Lemma float_round_6_nearest (s : bool) (m : positive) (e : Z)
    (r : spec_float) :
  float_round (S754_finite s m e) 6 = Ok r ->
  exists n : Z,
    half_even_nearest n (fst (times_million m e))
                        (snd (times_million m e)) = true /\
    r = float_of_decimal s n (-6).
Proof.
  intros Hr.
  pose proof (times_million_pos m e) as Hpos.
  rewrite times_million_shift_ratio in *. cbn [fst snd] in *.
  unfold float_round in Hr.
  change (323 <? 6) with false in Hr. change (6 <? -308) with false in Hr.
  change (0 <=? 6) with true in Hr. cbv iota in Hr.
  destruct (shift_ratio (Z.pos m) 1 (- e)) as [p q]. cbn [fst snd] in *.
  exists (round_half_even (p * 10 ^ 6) q). split.
  - now apply round_half_even_is_nearest.
  - change (- (6)) with (-6) in Hr.
    destruct (float_of_decimal s (round_half_even (p * 10 ^ 6) q) (-6));
      congruence.
Qed.

Local Close Scope Z_scope.

Lemma py_round_rounded (x y : json) :
  is_number x = true -> py_round default_precision x = Ok y ->
  rounded_to_6_decimals x y.
Proof.
  destruct x as [| | z | f | | |]; try discriminate; intros _.
  - intros [= <-]. reflexivity.
  - unfold py_round, default_precision.
    destruct (float_round f 6) as [r | err] eqn:Hr; [|discriminate].
    cbn [bind]. intros [= <-].
    destruct f as [s | s | | s m e];
      try (injection Hr as <-; reflexivity).
    destruct (float_round_6_nearest s m e r Hr) as (n & Hn & ->).
    exists n. split; [exact Hn | reflexivity].
Qed.

Lemma uniform_leaves_number (d : nat) (t : json) :
  uniform d t = true -> Forall (fun v => is_number v = true) (leaves t).
Proof.
  revert t. induction d as [|d IH]; intros t Hu.
  - cbn [uniform] in Hu. rewrite (leaves_number _ Hu). now constructor.
  - destruct t as [| | | | | l |]; try discriminate Hu.
    cbn [uniform] in Hu. cbn [leaves].
    rewrite forallb_forall in Hu. apply Forall_forall. intros v Hv.
    apply in_flat_map in Hv as (x & Hx & Hv).
    specialize (IH x (Hu x Hx)). rewrite Forall_forall in IH. now apply IH.
Qed.

Lemma Forall2_rounded (l l' : list json) :
  Forall (fun v => is_number v = true) l ->
  Forall2 (fun x y => py_round default_precision x = Ok y) l l' ->
  Forall2 rounded_to_6_decimals l l'.
Proof.
  intros Hn H. induction H as [|x y l l' Hxy _ IH]; constructor.
  - apply py_round_rounded; [now inversion Hn | exact Hxy].
  - apply IH. now inversion Hn.
Qed.

(** ** Scenario 3 and the Coordinate Rounder *)

(** C2, as stated, fails on a tree with an empty list: the empty list is a
    uniformly nested list of numbers, and so is a list of positions one of
    which is empty, but on both the code raises [IndexError] and returns no
    tree at all.  It fails as well on the tree of depth 0, a bare number,
    which the function cannot index. *)
Lemma C2_counterexample_empty_list :
  uniform 1 (JList []) = true /\
  round_coordinates default_precision (JList []) = Raise IndexError /\
  uniform 2 (JList [JList [JInt 1; JInt 2]; JList []]) = true /\
  round_coordinates default_precision
    (JList [JList [JInt 1; JInt 2]; JList []]) = Raise IndexError /\
  uniform 0 (JFloat (float_of_decimal false 46097654321 (-10))) = true /\
  round_coordinates default_precision
    (JFloat (float_of_decimal false 46097654321 (-10))) = Raise TypeError.
Proof. repeat split. Qed.

(** C2, amended.  For every uniformly nested coordinate tree [t] none of
    whose lists is empty: [round_coordinates] is [round] with 6 digits
    applied to every leaf; a returned tree has the nesting depth, the shape
    and the number of leaves of [t], and each of its leaves is the rounding
    of the leaf of [t] at the same place; and a tree is returned whenever the
    floats among the leaves are binary64 values.  At each level the
    elements are treated as nested exactly when the first one is a list.
    Each leaf of the returned tree is the leaf of [t] rounded to six
    decimals, half to even: an [int] is unchanged, and a finite float of
    exact value [v] becomes the float that the decimal [n * 10^-6] denotes,
    where [n] is the one integer that lies less than one half away from
    [v * 10^6], or exactly one half away and is even.
    The rounding of a float goes through [round_half_even], which gives a
    nearest integer and the even one on a tie.
    Scenario 3: [[-74.0821234567, 4.6097654321]] gives
    [[-74.082123, 4.609765]].  A number that rounds upwards and numbers half
    way between two numbers of six decimals:
    [[1.9999999, 0.0078125, 0.0234375, -0.0078125]] gives
    [[2.0, 0.007812, 0.023438, -0.007812]]. *)
Theorem C2_round_coordinates_on_nonempty_trees :
  (forall (d : nat) (t : json),
      uniform (S d) t = true -> no_empty_list t = true ->
      round_coordinates default_precision t =
        map_leaves (py_round default_precision) t /\
      (forall t' : json,
          round_coordinates default_precision t = Ok t' ->
          uniform (S d) t' = true /\
          shape_of t' = shape_of t /\
          List.length (leaves t') = List.length (leaves t) /\
          Forall2 (fun x y => py_round default_precision x = Ok y)
                  (leaves t) (leaves t') /\
          Forall2 rounded_to_6_decimals (leaves t) (leaves t')) /\
      (Forall (fun v => is_binary64 v = true) (leaves t) ->
       exists t' : json, round_coordinates default_precision t = Ok t')) /\
  (forall (precision : Z) (c : json) (cs : list json),
      round_coordinates precision (JList (c :: cs)) =
      if is_list c then
        cs' <- mapM (round_coordinates precision) (c :: cs) ;; Ok (JList cs')
      else
        cs' <- mapM (py_round precision) (c :: cs) ;; Ok (JList cs')) /\
  (forall p q : Z,
      (0 < q)%Z ->
      (2 * Z.abs (round_half_even p q * q - p) <= q)%Z /\
      ((2 * Z.abs (round_half_even p q * q - p))%Z = q ->
       Z.even (round_half_even p q) = true)) /\
  round_coordinates default_precision scenario3_input =
    Ok scenario3_expected /\
  (forall n1 n2 num den : Z,
      (0 < den)%Z ->
      half_even_nearest n1 num den = true ->
      half_even_nearest n2 num den = true -> n1 = n2) /\
  round_coordinates default_precision half_way_input = Ok half_way_expected.
Proof.
  split; [|split; [|split; [exact round_half_even_nearest|]]].
  - intros d t Hu Hn.
    pose proof (round_coordinates_uniform default_precision d t Hu Hn) as Heq.
    split; [exact Heq|]. split.
    + intros t' Hr. rewrite Heq in Hr.
      destruct (map_leaves_shape _ _ _ _ Hu Hr) as (U & S & L).
      split; [exact U|]. split; [exact S|].
      split; [symmetry; exact (Forall2_length L)|].
      split; [exact L|].
      apply Forall2_rounded; [|exact L].
      exact (uniform_leaves_number _ _ Hu).
    + intros Hr. rewrite Heq. now apply (map_leaves_returns (S d)).
  - intros precision c cs. rewrite round_coordinates_eqn.
    cbn [getitem0 py_iter bind]. reflexivity.
  - split; [vm_compute; reflexivity|].
    split; [exact half_even_nearest_unique|].
    vm_compute. reflexivity.
Qed.

Lemma C2_scenario3_witness :
  uniform 1 scenario3_input = true /\
  no_empty_list scenario3_input = true /\
  round_coordinates default_precision scenario3_input =
    map_leaves (py_round default_precision) scenario3_input.
Proof.
  split; [reflexivity|]. split; [reflexivity|].
  exact (proj1 (proj1 C2_round_coordinates_on_nonempty_trees
                      0 scenario3_input eq_refl eq_refl)).
Defined.

(** C4. On an empty coordinate list the code does look at a first element:
    [coords[0]] raises [IndexError], no empty list is returned, and a
    document with one feature whose coordinates are empty makes the whole
    transform raise. *)
Theorem C4_round_coordinates_empty_list_raises :
  getitem0 (JList []) = Raise IndexError /\
  round_coordinates default_precision (JList []) = Raise IndexError /\
  round_coordinates default_precision (JList []) <> Ok (JList []) /\
  transform
    (JObj [ ("type", JStr "FeatureCollection");
            ("features",
             JList [ JObj [ ("type", JStr "Feature");
                            ("properties", JObj []);
                            ("geometry",
                             JObj [ ("type", JStr "Polygon");
                                    ("coordinates", JList []) ]) ] ]) ])
  = Raise IndexError.
Proof. repeat split. discriminate. Qed.

(** ** The transform of a document *)

Lemma dict_set_frame (k : string) (v : json) (d : dict) :
  dict_mem k d = true ->
  Forall2 (fun a b => fst a = fst b /\ (fst a <> k -> snd a = snd b))
          d (dict_set k v d).
Proof.
  unfold dict_mem. induction d as [|[k' v'] d IH]; simpl; [discriminate|].
  destruct (String.eqb_spec k k') as [->|Hne]; intros H.
  - constructor.
    + split; [reflexivity | intros Hk; now contradiction Hk].
    + clear. induction d; constructor; auto.
  - constructor; [now split | now apply IH].
Qed.

Lemma transform_dict (kvs : dict) (data' : json) :
  transform (JObj kvs) = Ok data' ->
  (dict_mem "features" kvs = false /\ data' = JObj kvs) \/
  (exists features features',
      dict_get "features" kvs = Some features /\
      process_features features = Ok features' /\
      data' = JObj (dict_set "features" features' kvs)).
Proof.
  unfold transform. cbn [py_contains bind py_getitem].
  unfold dict_mem. destruct (dict_get "features" kvs) as [features|] eqn:E.
  - cbn [bind]. destruct (process_features features) as [features'|e] eqn:P;
      cbn [bind py_setitem]; [|discriminate].
    intros [= <-]. right. now exists features, features'.
  - intros [= <-]. now left.
Qed.

(** C6. Whenever the transform returns a document, every top-level field
    other than [features] is unchanged: the fields are the same, in the same
    order, and each one but [features] holds the value it held; a document
    that is not an object is returned as it is. *)
Theorem C6_transform_preserves_other_fields (data data' : json) :
  transform data = Ok data' ->
  match data with
  | JObj kvs =>
      exists kvs' : dict,
        data' = JObj kvs' /\
        keys kvs' = keys kvs /\
        Forall2 (fun a b => fst a = fst b /\
                            (fst a <> "features" -> snd a = snd b))
                kvs kvs' /\
        (forall k : string,
            k <> "features" -> dict_get k kvs' = dict_get k kvs)
  | _ => data' = data
  end.
Proof.
  intros H. destruct data as [| b | z | f | s | l | kvs];
    try discriminate H.
  - unfold transform in H. cbn [py_contains bind] in H.
    destruct (is_substring "features" s); [discriminate H|].
    now injection H as <-.
  - unfold transform in H. cbn [py_contains bind] in H.
    destruct (existsb _ l); [discriminate H|].
    now injection H as <-.
  - apply transform_dict in H as [[Hm ->]|(fs & fs' & Hg & _ & ->)].
    + exists kvs. split; [reflexivity|]. split; [reflexivity|]. split.
      * clear. induction kvs; constructor; auto.
      * reflexivity.
    + assert (Hm : dict_mem "features" kvs = true)
        by (unfold dict_mem; now rewrite Hg).
      exists (dict_set "features" fs' kvs). split; [reflexivity|].
      split; [rewrite keys_dict_set; now rewrite Hm|]. split.
      * now apply dict_set_frame.
      * intros k Hk. now apply dict_get_set_ne.
Qed.

Lemma transform_sample_document :
  transform sample_document = Ok sample_document_transformed.
Proof. vm_compute. reflexivity. Qed.

Lemma C6_sample_document_witness :
  transform sample_document = Ok sample_document_transformed /\
  exists kvs' : dict,
    sample_document_transformed = JObj kvs' /\
    dict_get "crs" kvs' = Some sample_crs.
Proof.
  split; [exact transform_sample_document|].
  destruct (C6_transform_preserves_other_fields
              sample_document sample_document_transformed
              transform_sample_document) as (kvs' & E & _ & _ & Hget).
  exists kvs'. split; [exact E|].
  rewrite (Hget "crs"); [reflexivity | discriminate].
Defined.

(** ** Features *)

(** A false [props] (null, an empty mapping) is compressed to [{}]. *)
Lemma compress_properties_falsy (p : json) :
  truthy p = false -> compress_properties p = Ok (JObj []).
Proof. intros H. unfold compress_properties. now rewrite H. Qed.

(** Once [properties] has been set, the geometry step leaves it alone. *)
Lemma process_feature_properties (f : dict) (p c feature' : json) :
  dict_get "properties" f = Some p ->
  compress_properties p = Ok c ->
  process_feature (JObj f) = Ok feature' ->
  exists f' : dict, feature' = JObj f' /\ dict_get "properties" f' = Some c.
Proof.
  intros Hp Hc. unfold process_feature.
  cbn [py_contains bind py_getitem]. unfold dict_mem at 1. rewrite Hp.
  cbn [bind]. rewrite Hc. cbn [bind py_setitem py_contains py_getitem].
  set (f1 := dict_set "properties" c f).
  assert (H1 : dict_get "properties" f1 = Some c) by apply dict_get_set_eq.
  destruct (dict_mem "geometry" f1); [|intros [= <-]; now exists f1].
  destruct (dict_get "geometry" f1) as [g|]; [|discriminate].
  cbn [bind]. destruct (truthy g); [|intros [= <-]; now exists f1].
  destruct (py_contains "coordinates" g) as [[|]|e]; cbn [bind];
    [ | intros [= <-]; now exists f1 | discriminate ].
  destruct (py_getitem g "coordinates") as [co|e]; cbn [bind]; [|discriminate].
  destruct (round_coordinates default_precision co) as [r|e]; cbn [bind];
    [|discriminate].
  destruct (py_setitem g "coordinates" r) as [g'|e]; cbn [bind];
    [|discriminate].
  intros [= <-]. exists (dict_set "geometry" g' f1). split; [reflexivity|].
  rewrite dict_get_set_ne; [exact H1 | discriminate].
Qed.

Lemma Forall2_nth_error_l {A B : Type} (R : A -> B -> Prop) (l : list A)
      (l' : list B) (i : nat) (x : A) :
  Forall2 R l l' -> nth_error l i = Some x ->
  exists y, nth_error l' i = Some y /\ R x y.
Proof.
  intros H. revert i. induction H as [|a b l l' Hab _ IH]; intros i.
  - destruct i; discriminate.
  - destruct i as [|i]; simpl.
    + intros [= <-]. now exists b.
    + apply IH.
Qed.

(** C9. In every document that the transform returns, a feature whose
    [properties] field is present and holds null, or an empty mapping, has
    that field present and holding the empty mapping [{}]: the features are
    as many as before, and the feature at the same position has
    [properties] equal to [{}], neither null nor missing. *)
Theorem C9_null_properties_become_empty_mapping
        (kvs : dict) (features : list json) (data' : json) :
  dict_get "features" kvs = Some (JList features) ->
  transform (JObj kvs) = Ok data' ->
  compress_properties JNull = Ok (JObj []) /\
  compress_properties (JObj []) = Ok (JObj []) /\
  exists (kvs' : dict) (features' : list json),
    data' = JObj kvs' /\
    dict_get "features" kvs' = Some (JList features') /\
    List.length features' = List.length features /\
    forall (i : nat) (f : dict) (p : json),
      nth_error features i = Some (JObj f) ->
      dict_get "properties" f = Some p ->
      p = JNull \/ p = JObj [] ->
      exists f' : dict,
        nth_error features' i = Some (JObj f') /\
        dict_get "properties" f' = Some (JObj []).
Proof.
  intros Hf Ht. split; [reflexivity|]. split; [reflexivity|].
  apply transform_dict in Ht as [[Hm _]|(fs & fs' & Hg & Hp & ->)].
  - unfold dict_mem in Hm. now rewrite Hf in Hm.
  - rewrite Hf in Hg. injection Hg as <-.
    cbn [process_features] in Hp.
    destruct (mapM process_feature features) as [l'|e] eqn:El;
      [|discriminate Hp].
    cbn [bind] in Hp. injection Hp as <-.
    apply mapM_Ok_Forall2 in El.
    exists (dict_set "features" (JList l') kvs), l'.
    split; [reflexivity|]. split; [apply dict_get_set_eq|].
    split; [symmetry; exact (Forall2_length El)|].
    intros i f p Hi Hprops Hnull.
    destruct (Forall2_nth_error_l _ _ _ _ _ El Hi) as (y & Hy & Hpf).
    assert (Hc : compress_properties p = Ok (JObj []))
      by (apply compress_properties_falsy; destruct Hnull as [->| ->];
          reflexivity).
    destruct (process_feature_properties f p (JObj []) y Hprops Hc Hpf)
      as (f' & -> & Hget).
    now exists f'.
Qed.

Lemma C9_sample_document_witness :
  dict_get "features" sample_fields = Some (JList sample_features) /\
  transform (JObj sample_fields) = Ok sample_document_transformed /\
  nth_error sample_features 1 = Some (JObj sample_null_feature) /\
  dict_get "properties" sample_null_feature = Some JNull /\
  exists f' : dict,
    nth_error sample_features_transformed 1 = Some (JObj f') /\
    dict_get "properties" f' = Some (JObj []).
Proof.
  repeat (split; [reflexivity || exact transform_sample_document|]).
  destruct (C9_null_properties_become_empty_mapping
              sample_fields sample_features sample_document_transformed
              eq_refl transform_sample_document)
    as (_ & _ & kvs' & features' & E & Hf & _ & Hall).
  injection E as <-. cbn in Hf. injection Hf as <-.
  exact (Hall 1%nat sample_null_feature JNull
              eq_refl eq_refl (or_introl eq_refl)).
Defined.

(** ** Files *)

Lemma file_get_put_eq (path content : string) (fs : list (string * string)) :
  file_get path (file_put path content fs) = Some content.
Proof.
  induction fs as [|[p c] fs IH]; simpl.
  - now rewrite String.eqb_refl.
  - destruct (String.eqb_spec path p) as [->|Hne]; simpl.
    + now rewrite String.eqb_refl.
    + destruct (String.eqb_spec path p); [contradiction | exact IH].
Qed.

Lemma file_get_put_ne (path path' content : string)
      (fs : list (string * string)) :
  path <> path' -> file_get path (file_put path' content fs) = file_get path fs.
Proof.
  intros Hne. induction fs as [|[p c] fs IH]; simpl.
  - destruct (String.eqb_spec path path'); [contradiction | reflexivity].
  - destruct (String.eqb_spec path' p) as [->|Hne']; simpl.
    + destruct (String.eqb_spec path p); [contradiction | reflexivity].
    + destruct (String.eqb_spec path p); [reflexivity | exact IH].
Qed.

Section ScriptProperties.

Variable json_load : string -> result json.
Variable json_dump : json -> string.

(** With two different paths the first size returned is the size of the
    input file, which the write does not touch. *)
Lemma compress_geojson_distinct_paths
      (input_path output_path : string) (w : world) (text : string)
      (data data' : json) :
  input_path <> output_path ->
  file_get input_path (files w) = Some text ->
  json_load text = Ok data ->
  transform data = Ok data' ->
  String.length text <> 0 ->
  exists w' : world,
    compress_geojson json_load json_dump input_path output_path w =
      Ok (w', (String.length text, String.length (json_dump data'))).
Proof.
  intros Hne Hget Hload Htr Hlen. unfold compress_geojson, read_file.
  cbn [files emit]. rewrite Hget. cbn [bind]. rewrite Hload. cbn [bind].
  rewrite Htr. cbn [bind]. unfold stat_size, write_file.
  cbn [files emit].
  rewrite (file_get_put_ne _ _ _ _ Hne), Hget. cbn [bind files emit].
  rewrite file_get_put_eq. cbn [bind].
  destruct (String.length text) as [|n]; [contradiction|].
  eexists. reflexivity.
Qed.

(** C5. When the file is rewritten in place, as [main] always does, both
    sizes are read after the write: the size returned and printed as the
    original one is the size of the rewritten file, equal to the compressed
    size, whatever the size of the file was before. *)
Theorem C5_in_place_original_size_is_size_after_write
        (path : string) (w : world) (text : string) (data data' : json) :
  file_get path (files w) = Some text ->
  json_load text = Ok data ->
  transform data = Ok data' ->
  String.length (json_dump data') <> 0 ->
  exists w' : world,
    compress_geojson json_load json_dump path path w =
      Ok (w', (String.length (json_dump data'),
               String.length (json_dump data'))) /\
    file_get path (files w') = Some (json_dump data') /\
    trace w' =
      trace w ++
      [ Printed (MsgCompressing path);
        ReadFile path;
        WriteFile path (json_dump data');
        StatFile path;
        StatFile path;
        Printed (MsgOriginal (String.length (json_dump data')));
        Printed (MsgCompressed (String.length (json_dump data')));
        Printed (MsgReduction (String.length (json_dump data'))
                            (String.length (json_dump data'))) ].
Proof.
  intros Hget Hload Htr Hlen. unfold compress_geojson, read_file.
  cbn [files emit]. rewrite Hget. cbn [bind]. rewrite Hload. cbn [bind].
  rewrite Htr. cbn [bind]. unfold stat_size, write_file.
  cbn [files emit]. rewrite file_get_put_eq. cbn [bind files emit].
  rewrite file_get_put_eq. cbn [bind].
  destruct (String.length (json_dump data')) as [|n] eqn:En;
    [contradiction|].
  eexists. split; [reflexivity|]. cbn [files trace emit].
  split; [apply file_get_put_eq|].
  rewrite <- !app_assoc. reflexivity.
Qed.

(** C8. When the districts directory does not exist, or holds no file
    named [district_*.geojson], [main] returns after one message: no file
    is read, written or measured, the files are what they were, and
    neither [json.load] nor [json.dump] has any part in the result. *)
Theorem C8_main_stops_without_processing (w : world) :
  dir_exists w = false \/ glob_districts w = [] ->
  exists (m : message) (w' : world),
    main json_load json_dump w = Ok w' /\
    (m = if dir_exists w then MsgNoFiles else MsgDirNotFound) /\
    files w' = files w /\
    dir_exists w' = dir_exists w /\
    trace w' = trace w ++ [Printed m] /\
    forall (load' : string -> result json) (dump' : json -> string),
      main load' dump' w = Ok w'.
Proof.
  intros H. unfold main. destruct (dir_exists w) eqn:Ed.
  - destruct H as [H|H]; [discriminate H|]. rewrite H. cbn [negb].
    exists MsgNoFiles, (emit (Printed MsgNoFiles) w).
    repeat split; cbn [emit dir_exists]; auto.
  - cbn [negb]. exists MsgDirNotFound, (emit (Printed MsgDirNotFound) w).
    repeat split; cbn [emit dir_exists]; auto.
Qed.

End ScriptProperties.

(** The file of three bytes is reported with an original size of two. *)
Lemma C5_in_place_witness :
  file_get "district_01.geojson" (files toy_world) = Some "{ }" /\
  String.length "{ }" = 3 /\
  exists w' : world,
    compress_geojson toy_load toy_dump
                     "district_01.geojson" "district_01.geojson" toy_world =
      Ok (w', (2, 2)).
Proof.
  split; [reflexivity|]. split; [reflexivity|].
  destruct (C5_in_place_original_size_is_size_after_write
              toy_load toy_dump "district_01.geojson" toy_world "{ }"
              (JObj []) (JObj []) eq_refl eq_refl eq_refl
              (fun H : String.length (toy_dump (JObj [])) = 0 =>
                 O_S 1 (eq_sym H)))
    as (w' & Hrun & _).
  exists w'. exact Hrun.
Defined.

Lemma C8_main_witness :
  (exists w' : world,
      main toy_load toy_dump world_without_districts = Ok w' /\
      files w' = files world_without_districts /\
      trace w' = [Printed MsgNoFiles]) /\
  (exists w' : world,
      main toy_load toy_dump world_without_directory = Ok w' /\
      files w' = files world_without_directory /\
      trace w' = [Printed MsgDirNotFound]).
Proof.
  split.
  - destruct (C8_main_stops_without_processing
                toy_load toy_dump world_without_districts
                (or_intror eq_refl))
      as (m & w' & Hrun & -> & Hfiles & _ & Htrace & _).
    exists w'. repeat split; assumption.
  - destruct (C8_main_stops_without_processing
                toy_load toy_dump world_without_directory
                (or_introl eq_refl))
      as (m & w' & Hrun & -> & Hfiles & _ & Htrace & _).
    exists w'. repeat split; assumption.
Defined.

(** ** compress_properties and the heap *)

Module HeapFacts.
Lemma load_store_eq (l : Heap.loc) (d d0 : dict) (h : Heap.heap) :
  Heap.load l h = Some d0 -> Heap.load l (Heap.store l d h) = Some d.
Proof.
  unfold Heap.load. revert l. induction h as [|x h IH]; intros l.
  - destruct l; discriminate.
  - destruct l as [|l]; simpl; [reflexivity | apply IH].
Qed.

Lemma load_store_ne (l l' : Heap.loc) (d : dict) (h : Heap.heap) :
  l <> l' -> Heap.load l' (Heap.store l d h) = Heap.load l' h.
Proof.
  unfold Heap.load. revert l l'. induction h as [|x h IH]; intros l l' Hne.
  - reflexivity.
  - destruct l as [|l], l' as [|l']; simpl; try reflexivity.
    + contradiction.
    + apply IH. congruence.
Qed.

Lemma store_same (l : Heap.loc) (d : dict) (h : Heap.heap) :
  Heap.load l h = Some d -> Heap.store l d h = h.
Proof.
  unfold Heap.load. revert l. induction h as [|x h IH]; intros l.
  - reflexivity.
  - destruct l as [|l]; simpl.
    + now intros [= ->].
    + intros H. f_equal. now apply IH.
Qed.

Lemma store_store (l : Heap.loc) (d d' : dict) (h : Heap.heap) :
  Heap.store l d' (Heap.store l d h) = Heap.store l d' h.
Proof.
  revert l. induction h as [|x h IH]; intros l; [reflexivity|].
  destruct l as [|l]; simpl; [reflexivity | now rewrite IH].
Qed.

Lemma load_alloc_new (d : dict) (h : Heap.heap) :
  Heap.load (List.length h) (h ++ [d]) = Some d.
Proof.
  unfold Heap.load. rewrite nth_error_app2 by apply Nat.le_refl.
  now rewrite Nat.sub_diag.
Qed.

Lemma load_alloc_old (l : Heap.loc) (d : dict) (h : Heap.heap) :
  l <> List.length h -> Heap.load l (h ++ [d]) = Heap.load l h.
Proof.
  unfold Heap.load. intros Hne.
  destruct (Nat.lt_ge_cases l (List.length h)) as [Hlt|Hge].
  - now apply nth_error_app1.
  - rewrite (proj2 (nth_error_None h l) Hge).
    apply nth_error_None. rewrite length_app. simpl. lia.
Qed.

Lemma skipn_nth_error {A : Type} (l : list A) (i : nat) (x : A) :
  nth_error l i = Some x -> skipn i l = x :: skipn (S i) l.
Proof.
  revert i. induction l as [|a l IH]; intros i.
  - destruct i; discriminate.
  - destruct i as [|i]; simpl.
    + now intros [= ->].
    + intros H. now rewrite (IH i H).
Qed.

(** One step on the Heap.heap is the step of the loop on the dict that
    [compressed] refers to. *)
Lemma compress_step_store (compressed : Heap.loc) (h : Heap.heap) (acc : dict)
      (kv : string * json) :
  Heap.load compressed h = Some acc ->
  Heap.compress_step compressed h kv =
  Heap.store compressed (compress_step acc kv) h.
Proof.
  intros Hc. destruct kv as [key value].
  unfold Heap.compress_step, compress_step, Heap.setitem.
  rewrite Hc.
  destruct (is_none value || is_empty_str value);
    [now rewrite store_same|].
  destruct (map_lookup key PROPERTY_MAP) as [[sk|]|];
    try reflexivity. now rewrite store_same.
Qed.

(** The loop reads [props] unchanged at every iteration, because the
    only object written is [compressed]. *)
Lemma items_loop_fold (fuel i : nat) (props compressed : Heap.loc) (h : Heap.heap)
      (d acc : dict) :
  props <> compressed ->
  Heap.load props h = Some d ->
  Heap.load compressed h = Some acc ->
  fuel + i = List.length d ->
  Heap.items_loop fuel i props compressed h =
  Heap.store compressed (fold_left compress_step (skipn i d) acc) h.
Proof.
  intros Hne. revert i h acc.
  induction fuel as [|fuel IH]; intros i h acc Hp Hc Hlen.
  - simpl in Hlen. subst i. rewrite skipn_all. simpl.
    now rewrite store_same.
  - cbn [Heap.items_loop]. rewrite Hp.
    destruct (nth_error d i) as [kv|] eqn:En.
    + rewrite (skipn_nth_error _ _ _ En). cbn [fold_left].
      rewrite (compress_step_store _ _ _ _ Hc).
      rewrite (IH (S i) _ (compress_step acc kv)).
      * apply store_store.
      * rewrite load_store_ne by congruence. exact Hp.
      * exact (load_store_eq _ _ _ _ Hc).
      * lia.
    + apply nth_error_None in En. lia.
Qed.

End HeapFacts.

(** C10. [compress_properties] never mutates its argument: called on a
    reference to a dict, it returns a reference that was not allocated
    before, to a dict holding the compressed entries; the dict of the
    argument, and every other object of the heap, holds exactly the entries
    it held before the call. *)
Theorem C10_compress_properties_does_not_mutate
        (h : Heap.heap) (props : Heap.loc) (d : dict) :
  Heap.load props h = Some d ->
  exists (h' : Heap.heap) (r : Heap.loc),
    Heap.compress_properties props h = Some (h', r) /\
    Heap.load r h = None /\
    r <> props /\
    Heap.load r h' = Some (compress_entries d) /\
    compress_properties (JObj d) = Ok (JObj (compress_entries d)) /\
    Heap.load props h' = Some d /\
    forall l : Heap.loc, l <> r -> Heap.load l h' = Heap.load l h.
Proof.
  intros Hp. unfold Heap.compress_properties. rewrite Hp.
  assert (Hnew : Heap.load (List.length h) h = None)
    by (apply nth_error_None; apply Nat.le_refl).
  assert (Hne : props <> List.length h) by (intros ->; congruence).
  destruct d as [|kv d].
  - exists (h ++ [[]]), (List.length h). unfold Heap.alloc.
    split; [reflexivity|]. split; [exact Hnew|]. split; [congruence|].
    split; [apply HeapFacts.load_alloc_new|]. split; [reflexivity|].
    split; [now rewrite HeapFacts.load_alloc_old|].
    intros l Hl. now apply HeapFacts.load_alloc_old.
  - unfold Heap.alloc.
    rewrite (HeapFacts.items_loop_fold _ 0 props (List.length h)
               (h ++ [[]]) (kv :: d) []);
      [ | exact Hne
        | now rewrite HeapFacts.load_alloc_old
        | apply HeapFacts.load_alloc_new
        | lia ].
    cbn [skipn]. fold (compress_entries (kv :: d)).
    eexists _, (List.length h). split; [reflexivity|].
    split; [exact Hnew|]. split; [congruence|]. split.
    { apply (HeapFacts.load_store_eq _ _ []), HeapFacts.load_alloc_new. }
    split; [reflexivity|]. split.
    + rewrite HeapFacts.load_store_ne by congruence.
      now rewrite HeapFacts.load_alloc_old.
    + intros l Hl. rewrite HeapFacts.load_store_ne by congruence.
      now apply HeapFacts.load_alloc_old.
Qed.

Lemma C10_heap_witness :
  exists (h' : Heap.heap) (r : Heap.loc),
    Heap.compress_properties 0
      [ [ ("height", JInt 3); ("ASSETNUM", JInt 1); ("x", JNull);
          ("species", JStr "a"); ("h", JInt 5) ] ] = Some (h', r) /\
    Heap.load 0 h' =
      Some [ ("height", JInt 3); ("ASSETNUM", JInt 1); ("x", JNull);
             ("species", JStr "a"); ("h", JInt 5) ] /\
    Heap.load r h' = Some [ ("h", JInt 5); ("sn", JStr "a") ].
Proof.
  destruct (C10_compress_properties_does_not_mutate
              [ [ ("height", JInt 3); ("ASSETNUM", JInt 1); ("x", JNull);
                  ("species", JStr "a"); ("h", JInt 5) ] ] 0 _ eq_refl)
    as (h' & r & Hrun & _ & _ & Hr & _ & Hp & _).
  exists h', r. repeat split; assumption.
Defined.

(** * Further properties of the code *)

(** ** compress_properties: size, provenance and untouched keys *)

Lemma length_dict_set (k : string) (v : json) (d : dict) :
  List.length (dict_set k v d) <= S (List.length d).
Proof.
  induction d as [|[k' v'] d IH]; simpl; [lia|].
  destruct (String.eqb k k'); simpl; lia.
Qed.

Lemma length_compress_step (acc : dict) (kv : string * json) :
  List.length (compress_step acc kv) <= S (List.length acc).
Proof.
  rewrite compress_step_emit. destruct (spec_emit kv) as [out|]; [|lia].
  apply length_dict_set.
Qed.

Lemma length_fold_compress_step (p acc : dict) :
  List.length (fold_left compress_step p acc)
  <= List.length acc + List.length p.
Proof.
  revert acc. induction p as [|kv p IH]; intros acc; simpl; [lia|].
  specialize (IH (compress_step acc kv)).
  pose proof (length_compress_step acc kv). lia.
Qed.

(** The compressed mapping never has more entries than the mapping it was
    built from. *)
Theorem compress_properties_never_grows (p : dict) :
  exists q : dict,
    compress_properties (JObj p) = Ok (JObj q) /\
    List.length q <= List.length p.
Proof.
  exists (compress_entries p). split; [apply compress_properties_dict|].
  apply (length_fold_compress_step p []).
Qed.

Lemma dict_get_In (k : string) (v : json) (d : dict) :
  dict_get k d = Some v -> In (k, v) d.
Proof.
  induction d as [|[k' v'] d IH]; simpl; [discriminate|].
  destruct (String.eqb_spec k k') as [->|Hne].
  - intros [= ->]. now left.
  - intros H. right. now apply IH.
Qed.

Lemma spec_emitted_In (out : string * json) (p : dict) :
  In out (spec_emitted p) <-> exists kv, In kv p /\ spec_emit kv = Some out.
Proof.
  induction p as [|kv p IH]; simpl.
  - split; [tauto | intros (kv & [] & _)].
  - destruct (spec_emit kv) as [o|] eqn:E; simpl; rewrite IH; split.
    + intros [<-|(kv' & Hin & He)]; [exists kv | exists kv']; auto.
    + intros (kv' & [<-|Hin] & He).
      * left. congruence.
      * right. now exists kv'.
    + intros (kv' & Hin & He). exists kv'. auto.
    + intros (kv' & [<-|Hin] & He); [congruence | now exists kv'].
Qed.

Lemma spec_compress_get (p : dict) (k : string) :
  dict_get k (spec_compress p) = last_emitted k p.
Proof.
  unfold spec_compress, last_emitted. rewrite fold_set_get.
  now destruct (dict_get k (rev (spec_emitted p))).
Qed.

(** What [spec_emit] says in terms of the table. *)
Lemma spec_emit_Some (k0 k : string) (v0 v : json) :
  spec_emit (k0, v0) = Some (k, v) <->
  v = v0 /\ v0 <> JNull /\ v0 <> JStr "" /\
  (map_lookup k0 PROPERTY_MAP = Some (Some k) \/
   (map_lookup k0 PROPERTY_MAP = None /\ k = k0)).
Proof.
  unfold spec_emit. cbn [fst snd].
  destruct (map_lookup k0 PROPERTY_MAP) as [[short|]|]; split.
  - destruct v0 as [| | | | s | |]; try discriminate;
      try (intros [= <- <-]; repeat split; try discriminate; now left).
    destruct s; [discriminate|].
    intros [= <- <-]; repeat split; try discriminate; now left.
  - intros (-> & Hn & He & [[= ->]|[[=] _]]).
    destruct v0 as [| | | | s | |]; try reflexivity; try contradiction.
    destruct s; [contradiction | reflexivity].
  - destruct v0 as [| | | | s | |]; try discriminate.
    destruct s; discriminate.
  - intros (_ & _ & _ & [[=]|[[=] _]]).
  - destruct v0 as [| | | | s | |]; try discriminate;
      try (intros [= <- <-]; repeat split; try discriminate; now right).
    destruct s; [discriminate|].
    intros [= <- <-]; repeat split; try discriminate; now right.
  - intros (-> & Hn & He & [[=]|[_ ->]]).
    destruct v0 as [| | | | s | |]; try reflexivity; try contradiction.
    destruct s; [contradiction | reflexivity].
Qed.

(** Every entry of the compressed mapping carries, unmodified, the value of
    an entry of the input whose value is neither null nor the empty string;
    its key is the short key the table gives for that entry's key, or that
    key itself when the table does not have it. *)
Theorem compress_properties_values_pass_through
        (p : dict) (k : string) (v : json) :
  dict_get k (compress_entries p) = Some v ->
  exists k0 : string,
    In (k0, v) p /\
    v <> JNull /\ v <> JStr "" /\
    (map_lookup k0 PROPERTY_MAP = Some (Some k) \/
     (map_lookup k0 PROPERTY_MAP = None /\ k = k0)).
Proof.
  rewrite compress_entries_spec, spec_compress_get.
  unfold last_emitted. intros Hget.
  apply dict_get_In, in_rev, spec_emitted_In in Hget.
  destruct Hget as ([k0 v0] & Hin & He).
  apply spec_emit_Some in He as (-> & Hn & Hs & Hk).
  now exists k0.
Qed.

Lemma map_lookup_short_keys (k0 k : string) :
  map_lookup k0 PROPERTY_MAP = Some (Some k) -> In k short_keys.
Proof.
  intros H. apply map_lookup_In in H. unfold short_keys.
  apply in_flat_map. exists (k0, Some k). split; [exact H | now left].
Qed.

Lemma spec_emit_same_key (k0 k : string) (v0 v : json) :
  map_lookup k PROPERTY_MAP = None -> ~ In k short_keys ->
  spec_emit (k0, v0) = Some (k, v) -> k0 = k /\ v = v0.
Proof.
  intros Hk Hs He. apply spec_emit_Some in He as (-> & _ & _ & [Hm|[_ ->]]).
  - exfalso. apply Hs. now apply (map_lookup_short_keys k0).
  - now split.
Qed.

Lemma dict_get_rev_unique (k : string) (l : dict) :
  (forall v v', In (k, v) l -> In (k, v') l -> v = v') ->
  dict_get k (rev l) = dict_get k l.
Proof.
  intros Hu. destruct (dict_get k l) as [v|] eqn:E.
  - apply dict_get_In in E.
    destruct (dict_get k (rev l)) as [v'|] eqn:E'.
    + apply dict_get_In, in_rev in E'. f_equal. now apply Hu.
    + exfalso. apply dict_get_None_keys in E'. apply E'. unfold keys.
      apply in_map_iff. exists (k, v). split; [reflexivity|].
      now apply in_rev in E.
  - apply dict_get_None_keys in E. apply dict_get_None_keys.
    intros Hin. apply E. unfold keys in *. rewrite map_rev in Hin.
    now apply in_rev in Hin.
Qed.

Lemma In_keys (k : string) (v : json) (d : dict) : In (k, v) d -> In k (keys d).
Proof. intros H. unfold keys. apply in_map_iff. now exists (k, v). Qed.

Lemma NoDup_keys_unique (k : string) (v v' : json) (d : dict) :
  NoDup (keys d) -> In (k, v) d -> In (k, v') d -> v = v'.
Proof.
  induction d as [|[k0 v0] d IH]; simpl; [tauto|].
  intros Hnd [H1|H1] [H2|H2]; inversion Hnd as [|? ? Hnin Hnd']; subst.
  - congruence.
  - injection H1 as -> ->. exfalso. apply Hnin. now apply (In_keys _ v').
  - injection H2 as -> ->. exfalso. apply Hnin. now apply (In_keys _ v).
  - now apply IH.
Qed.

(** In a mapping with distinct keys, an entry whose key the table neither
    has nor produces goes through under its own key with its own value,
    unless that value is null or the empty string; and no such key appears
    that the input did not have. *)
Theorem compress_properties_keeps_unmapped_key (p : dict) (k : string) :
  NoDup (keys p) ->
  map_lookup k PROPERTY_MAP = None ->
  ~ In k short_keys ->
  dict_get k (compress_entries p) =
  match dict_get k p with
  | Some v => if is_none v || is_empty_str v then None else Some v
  | None => None
  end.
Proof.
  intros Hnd Hk Hs. rewrite compress_entries_spec, spec_compress_get.
  unfold last_emitted. rewrite dict_get_rev_unique.
  - induction p as [|[k0 v0] p IH]; [reflexivity|].
    inversion Hnd as [|? ? Hnin Hnd']; subst. specialize (IH Hnd').
    cbn [spec_emitted dict_get].
    destruct (spec_emit (k0, v0)) as [[k1 v1]|] eqn:E.
    + cbn [dict_get]. destruct (String.eqb_spec k k1) as [<-|Hne].
      * destruct (spec_emit_same_key _ _ _ _ Hk Hs E) as [-> ->].
        rewrite String.eqb_refl.
        apply spec_emit_Some in E as (_ & Hn & He & _).
        destruct v0 as [| | | | s | |]; try reflexivity; try contradiction.
        destruct s; [contradiction | reflexivity].
      * destruct (String.eqb_spec k k0) as [<-|Hne0]; [|exact IH].
        exfalso. apply spec_emit_Some in E as (_ & _ & _ & [Hm|[_ ->]]).
        -- congruence.
        -- now apply Hne.
    + destruct (String.eqb_spec k k0) as [<-|Hne0]; [|exact IH].
      rewrite IH. clear IH.
      assert (Hv : is_none v0 || is_empty_str v0 = true).
      { unfold spec_emit in E. cbn [fst snd] in E. rewrite Hk in E.
        destruct v0 as [| | | | s | |]; try discriminate; try reflexivity.
        destruct s; [reflexivity | discriminate]. }
      rewrite Hv. apply dict_get_None_keys in Hnin. now rewrite Hnin.
  - intros v v' H1 H2.
    apply spec_emitted_In in H1 as ([k1 v1] & Hin1 & He1).
    apply spec_emitted_In in H2 as ([k2 v2] & Hin2 & He2).
    destruct (spec_emit_same_key _ _ _ _ Hk Hs He1) as [-> ->].
    destruct (spec_emit_same_key _ _ _ _ Hk Hs He2) as [-> ->].
    now apply (NoDup_keys_unique k _ _ p).
Qed.

(** ** round_coordinates on any value *)

Lemma round_coordinates_str (precision : Z) (s : string) (t' : json) :
  round_coordinates precision (JStr s) <> Ok t'.
Proof. destruct s; discriminate. Qed.

Lemma py_round_Ok_leaf (precision : Z) (x y : json) :
  py_round precision x = Ok y -> is_round_leaf x = true /\ is_number y = true.
Proof.
  destruct x as [| b | z | f | | |]; try discriminate; simpl.
  - destruct (0 <=? precision)%Z; intros [= <-]; now split.
  - destruct (0 <=? precision)%Z; intros [= <-]; now split.
  - destruct (float_round f precision); simpl; [|discriminate].
    intros [= <-]. now split.
Qed.

Lemma leaves_not_list (v : json) : is_list v = false -> leaves v = [v].
Proof. destruct v; try discriminate; reflexivity. Qed.

Lemma shape_of_not_list (v : json) : is_list v = false -> shape_of v = Leaf.
Proof. destruct v; try discriminate; reflexivity. Qed.

Lemma is_round_leaf_not_list (v : json) :
  is_round_leaf v = true -> is_list v = false.
Proof. destruct v; try discriminate; reflexivity. Qed.

Lemma is_number_not_list (v : json) : is_number v = true -> is_list v = false.
Proof. destruct v; try discriminate; reflexivity. Qed.

(** The two ways a non-empty list is gone through. *)
Lemma round_coordinates_cons (precision : Z) (c : json) (cs : list json) :
  round_coordinates precision (JList (c :: cs)) =
  if is_list c then
    cs' <- mapM (round_coordinates precision) (c :: cs) ;; Ok (JList cs')
  else
    cs' <- mapM (py_round precision) (c :: cs) ;; Ok (JList cs').
Proof. rewrite round_coordinates_eqn. reflexivity. Qed.

Lemma round_coordinates_list_inv (precision : Z) (l : list json) (t' : json) :
  round_coordinates precision (JList l) = Ok t' ->
  exists (c : json) (cs l' : list json),
    l = c :: cs /\ t' = JList l' /\
    ((is_list c = true /\
      Forall2 (fun x y => round_coordinates precision x = Ok y) l l') \/
     (is_list c = false /\
      Forall2 (fun x y => py_round precision x = Ok y) l l')).
Proof.
  destruct l as [|c cs]; [discriminate|].
  rewrite round_coordinates_cons. intros H. exists c, cs.
  destruct (is_list c).
  - destruct (mapM (round_coordinates precision) (c :: cs)) as [l'|e] eqn:E;
      [|discriminate H].
    cbn [bind] in H. injection H as <-. exists l'.
    repeat split. left. split; [reflexivity | now apply mapM_Ok_Forall2].
  - destruct (mapM (py_round precision) (c :: cs)) as [l'|e] eqn:E;
      [|discriminate H].
    cbn [bind] in H. injection H as <-. exists l'.
    repeat split. right. split; [reflexivity | now apply mapM_Ok_Forall2].
Qed.

Lemma round_coordinates_shape_leaves (precision : Z) (t t' : json) :
  round_coordinates precision t = Ok t' ->
  shape_of t' = shape_of t /\
  Forall2 (fun x y => py_round precision x = Ok y) (leaves t) (leaves t').
Proof.
  intros H.
  revert t' H. induction t as [| | | | s | l IH | kvs _] using json_ind_nested;
    intros t' H; try discriminate H.
  - now apply round_coordinates_str in H.
  - apply round_coordinates_list_inv in H
      as (c & cs & l' & -> & -> & [[Hc HF]|[Hc HF]]).
    + clear Hc. cbn [shape_of leaves].
      induction HF as [|x y l l' Hxy _ IHl]; [now split; constructor|].
      inversion IH as [|? ? Hx Hl]; subst.
      destruct (Hx _ Hxy) as [Sx Lx]. destruct (IHl Hl) as [Sl Ll].
      cbn [map flat_map]. split.
      * injection Sl as Sl. now rewrite Sx, Sl.
      * now apply Forall2_app.
    + clear Hc IH. cbn [shape_of leaves].
      induction HF as [|x y l l' Hxy _ IHl]; [now split; constructor|].
      destruct IHl as [Sl Ll].
      destruct (py_round_Ok_leaf _ _ _ Hxy) as [Hx Hy].
      apply is_round_leaf_not_list in Hx. apply is_number_not_list in Hy.
      cbn [map flat_map].
      rewrite (leaves_not_list _ Hx), (leaves_not_list _ Hy).
      rewrite (shape_of_not_list _ Hx), (shape_of_not_list _ Hy).
      split.
      * injection Sl as Sl. now rewrite Sl.
      * now constructor.
Qed.

(** Whatever value [round_coordinates] is given, also one that is not
    nested uniformly: when it returns, the result has the shape of the input
    and its leaves are, from left to right, the roundings of the leaves of
    the input. *)
Theorem round_coordinates_preserves_shape (precision : Z) (t t' : json) :
  round_coordinates precision t = Ok t' ->
  shape_of t' = shape_of t /\
  List.length (leaves t') = List.length (leaves t) /\
  Forall2 (fun x y => py_round precision x = Ok y) (leaves t) (leaves t').
Proof.
  intros H.
  destruct (round_coordinates_shape_leaves precision t t' H) as [Hs Hl].
  repeat split; try assumption.
  symmetry. exact (Forall2_length Hl).
Qed.

(** [round_coordinates] returns only on a list all of whose lists are
    non-empty and hold either lists only or leaves only, and whose leaves
    are numbers or booleans: a null, a string or an object anywhere makes it
    raise. *)
Lemma round_coordinates_returns_only_on (precision : Z) (t t' : json) :
  round_coordinates precision t = Ok t' ->
  is_list t = true /\ no_empty_list t = true /\
  level_consistent t = true /\
  Forall (fun v => is_round_leaf v = true) (leaves t).
Proof.
  revert t'. induction t as [| | | | s | l IH | kvs _] using json_ind_nested;
    intros t' H; try discriminate H.
  - now apply round_coordinates_str in H.
  - apply round_coordinates_list_inv in H
      as (c & cs & l' & -> & -> & [[Hc HF]|[Hc HF]]).
    + split; [reflexivity|].
      assert (Hall : Forall (fun x => is_list x = true /\
                                      no_empty_list x = true /\
                                      level_consistent x = true /\
                                      Forall (fun v => is_round_leaf v = true)
                                             (leaves x)) (c :: cs)).
      { clear Hc. induction HF as [|x y l l' Hxy _ IHl]; [constructor|].
        inversion IH as [|? ? Hx Hl]; subst.
        constructor; [now apply (Hx y) | now apply IHl]. }
      clear HF IH Hc. change (no_empty_list (JList (c :: cs)))
        with (forallb no_empty_list (c :: cs)).
      cbn [level_consistent leaves].
      assert (Hl : forallb is_list (c :: cs) = true)
        by (apply forallb_forall; intros x Hx;
            rewrite Forall_forall in Hall; now apply Hall).
      rewrite Hl. cbn [orb andb].
      repeat split.
      * apply forallb_forall. intros x Hx.
        rewrite Forall_forall in Hall. now apply Hall.
      * apply forallb_forall. intros x Hx.
        rewrite Forall_forall in Hall. now apply Hall.
      * apply Forall_forall. intros v Hv. apply in_flat_map in Hv as (x & Hx & Hv).
        rewrite Forall_forall in Hall.
        destruct (Hall x Hx) as (_ & _ & _ & Hlv).
        rewrite Forall_forall in Hlv. now apply Hlv.
    + split; [reflexivity|].
      assert (Hall : Forall (fun x => is_round_leaf x = true) (c :: cs)).
      { clear Hc IH. induction HF as [|x y l l' Hxy _ IHl]; constructor.
        - now apply (py_round_Ok_leaf precision x y).
        - exact IHl. }
      clear HF IH Hc. change (no_empty_list (JList (c :: cs)))
        with (forallb no_empty_list (c :: cs)).
      cbn [level_consistent leaves]. rewrite Forall_forall in Hall.
      assert (Hn : forallb (fun x => negb (is_list x)) (c :: cs) = true).
      { apply forallb_forall. intros x Hx.
        now rewrite (is_round_leaf_not_list x (Hall x Hx)). }
      rewrite Hn, orb_true_r. cbn [andb].
      repeat split.
      * apply forallb_forall. intros x Hx.
        specialize (Hall x Hx). destruct x; try discriminate; reflexivity.
      * apply forallb_forall. intros x Hx.
        specialize (Hall x Hx). destruct x; try discriminate; reflexivity.
      * apply Forall_forall. intros v Hv. apply in_flat_map in Hv as (x & Hx & Hv).
        rewrite (leaves_not_list x) in Hv
          by (apply is_round_leaf_not_list; now apply Hall).
        destruct Hv as [<-|[]]. now apply Hall.
Qed.

Lemma py_round_leaf_returns (x : json) :
  is_round_leaf x = true -> is_binary64 x = true ->
  exists y, py_round default_precision x = Ok y.
Proof.
  destruct x as [| b | z | f | | |]; try discriminate; intros _ Hb.
  - now exists (JInt (if b then 1%Z else 0%Z)).
  - now apply py_round_returns.
  - now apply py_round_returns.
Qed.

Lemma level_consistent_cons (c : json) (cs : list json) :
  level_consistent (JList (c :: cs)) = true ->
  forallb level_consistent (c :: cs) = true /\
  (if is_list c then forallb is_list (c :: cs)
   else forallb (fun x => negb (is_list x)) (c :: cs)) = true.
Proof.
  cbn [level_consistent]. intros H. apply andb_true_iff in H as [Ho Hc].
  split; [exact Hc|]. cbn [forallb] in *.
  destruct (is_list c); cbn [negb andb orb] in *.
  - now rewrite orb_false_r in Ho.
  - exact Ho.
Qed.

Lemma round_coordinates_returns_on (t : json) :
  is_list t = true -> no_empty_list t = true ->
  level_consistent t = true ->
  Forall (fun v => is_round_leaf v = true) (leaves t) ->
  Forall (fun v => is_binary64 v = true) (leaves t) ->
  exists t', round_coordinates default_precision t = Ok t'.
Proof.
  induction t as [| | | | s | l IH | kvs _] using json_ind_nested;
    try discriminate.
  intros _ Hn Hc Hr Hb. destruct l as [|c cs]; [discriminate Hn|].
  change (forallb no_empty_list (c :: cs) = true) in Hn.
  apply level_consistent_cons in Hc as [Hc Hk].
  cbn [leaves] in Hr, Hb. rewrite Forall_forall in IH, Hr, Hb.
  rewrite forallb_forall in Hn, Hc.
  rewrite round_coordinates_cons. destruct (is_list c).
  - rewrite forallb_forall in Hk.
    destruct (mapM_total (round_coordinates default_precision) (c :: cs))
      as [l' ->]; [|now exists (JList l')].
    intros x Hx. apply IH; auto.
    + apply Forall_forall. intros v Hv. apply Hr.
      apply in_flat_map. now exists x.
    + apply Forall_forall. intros v Hv. apply Hb.
      apply in_flat_map. now exists x.
  - rewrite forallb_forall in Hk.
    destruct (mapM_total (py_round default_precision) (c :: cs))
      as [l' ->]; [|now exists (JList l')].
    intros x Hx.
    assert (Hlx : leaves x = [x]).
    { apply leaves_not_list. specialize (Hk x Hx).
      now destruct (is_list x). }
    apply py_round_leaf_returns.
    + apply Hr. apply in_flat_map. exists x. rewrite Hlx. split; [exact Hx|now left].
    + apply Hb. apply in_flat_map. exists x. rewrite Hlx. split; [exact Hx|now left].
Qed.

(** The exact domain of the Coordinate Rounder.  On a value whose floats
    are binary64, [round_coordinates] with the default precision returns if
    and only if the value is a list, none of its lists is empty, each of its
    lists holds lists only or leaves only, and every leaf is a number or a
    boolean.  On any other value it raises. *)
Theorem round_coordinates_returns_iff (t : json) :
  Forall (fun v => is_binary64 v = true) (leaves t) ->
  (exists t', round_coordinates default_precision t = Ok t') <->
  (is_list t = true /\ no_empty_list t = true /\
   level_consistent t = true /\
   Forall (fun v => is_round_leaf v = true) (leaves t)).
Proof.
  intros Hb. split.
  - intros [t' H].
    exact (round_coordinates_returns_only_on default_precision t t' H).
  - intros (Hl & Hn & Hc & Hr). now apply round_coordinates_returns_on.
Qed.

Lemma mapM_fixed {A : Type} (f : A -> result A) (l : list A) :
  (forall x, In x l -> f x = Ok x) -> mapM f l = Ok l.
Proof.
  induction l as [|x l IH]; intros H; simpl; [reflexivity|].
  rewrite (H x (or_introl eq_refl)). cbn [bind].
  rewrite IH; [reflexivity|]. intros y Hy. apply H. now right.
Qed.

(** Integer coordinates are returned as they are: with a precision that is
    not negative, a tree all of whose leaves are ints comes back equal. *)
Theorem round_coordinates_fixes_ints (precision : Z) (t : json) :
  (0 <= precision)%Z ->
  is_list t = true -> no_empty_list t = true ->
  level_consistent t = true ->
  Forall (fun v => is_int v = true) (leaves t) ->
  round_coordinates precision t = Ok t.
Proof.
  intros Hp.
  induction t as [| | | | s | l IH | kvs _] using json_ind_nested;
    try discriminate.
  intros _ Hn Hc Hi. destruct l as [|c cs]; [discriminate Hn|].
  change (forallb no_empty_list (c :: cs) = true) in Hn.
  apply level_consistent_cons in Hc as [Hc Hk].
  cbn [leaves] in Hi. rewrite Forall_forall in IH, Hi.
  rewrite forallb_forall in Hn, Hc.
  rewrite round_coordinates_cons. destruct (is_list c).
  - rewrite forallb_forall in Hk.
    rewrite mapM_fixed; [reflexivity|].
    intros x Hx. apply IH; auto.
    apply Forall_forall. intros v Hv. apply Hi.
    apply in_flat_map. now exists x.
  - rewrite forallb_forall in Hk.
    rewrite mapM_fixed; [reflexivity|].
    intros x Hx.
    assert (Hlx : leaves x = [x]).
    { apply leaves_not_list. specialize (Hk x Hx).
      now destruct (is_list x). }
    assert (Hix : is_int x = true).
    { apply Hi. apply in_flat_map. exists x. rewrite Hlx.
      split; [exact Hx | now left]. }
    destruct x; try discriminate Hix. unfold py_round.
    apply Z.leb_le in Hp. now rewrite Hp.
Qed.

(** ** The loop body on one feature *)

Lemma process_feature_inv (f : dict) (feature' : json) :
  process_feature (JObj f) = Ok feature' ->
  exists f1 : dict,
    match dict_get "properties" f with
    | None => f1 = f
    | Some p =>
        exists c, compress_properties p = Ok c /\
                  f1 = dict_set "properties" c f
    end /\
    match dict_get "geometry" f1 with
    | None => feature' = JObj f1
    | Some g =>
        if truthy g then
          exists has : bool,
            py_contains "coordinates" g = Ok has /\
            if has then
              exists co r g',
                py_getitem g "coordinates" = Ok co /\
                round_coordinates default_precision co = Ok r /\
                py_setitem g "coordinates" r = Ok g' /\
                feature' = JObj (dict_set "geometry" g' f1)
            else feature' = JObj f1
        else feature' = JObj f1
    end.
Proof.
  unfold process_feature. cbn [py_contains bind py_getitem].
  unfold dict_mem at 1.
  destruct (dict_get "properties" f) as [p|] eqn:Ep; cbn [bind].
  - destruct (compress_properties p) as [c|e] eqn:Ec; cbn [bind]; [|discriminate].
    cbn [py_setitem bind py_contains py_getitem].
    set (f1 := dict_set "properties" c f). intros H. exists f1.
    split; [now exists c|]. revert H. unfold dict_mem.
    destruct (dict_get "geometry" f1) as [g|]; [|now intros [= <-]].
    cbn [bind]. destruct (truthy g); [|now intros [= <-]].
    destruct (py_contains "coordinates" g) as [has|e]; cbn [bind];
      [|discriminate].
    intros H. exists has. split; [reflexivity|]. destruct has;
      [|now injection H as <-].
    destruct (py_getitem g "coordinates") as [co|e] eqn:Eco;
      cbn [bind] in H; [|discriminate H].
    destruct (round_coordinates default_precision co) as [r|e] eqn:Er;
      cbn [bind] in H; [|discriminate H].
    destruct (py_setitem g "coordinates" r) as [g'|e] eqn:Es;
      cbn [bind] in H; [|discriminate H].
    cbn [py_setitem] in H. injection H as <-. exists co, r, g'.
    repeat split; assumption.
  - cbn [py_contains py_getitem]. intros H. exists f.
    split; [reflexivity|]. revert H. unfold dict_mem.
    destruct (dict_get "geometry" f) as [g|]; [|now intros [= <-]].
    cbn [bind]. destruct (truthy g); [|now intros [= <-]].
    destruct (py_contains "coordinates" g) as [has|e]; cbn [bind];
      [|discriminate].
    intros H. exists has. split; [reflexivity|]. destruct has;
      [|now injection H as <-].
    destruct (py_getitem g "coordinates") as [co|e] eqn:Eco;
      cbn [bind] in H; [|discriminate H].
    destruct (round_coordinates default_precision co) as [r|e] eqn:Er;
      cbn [bind] in H; [|discriminate H].
    destruct (py_setitem g "coordinates" r) as [g'|e] eqn:Es;
      cbn [bind] in H; [|discriminate H].
    cbn [py_setitem] in H. injection H as <-. exists co, r, g'.
    repeat split; assumption.
Qed.

Lemma keys_dict_set_present (k : string) (v v0 : json) (d : dict) :
  dict_get k d = Some v0 -> keys (dict_set k v d) = keys d.
Proof.
  intros H. rewrite keys_dict_set. unfold dict_mem. now rewrite H.
Qed.

(** On a feature object, when the loop body returns, the feature has the
    same members in the same order: [properties] and [geometry] are never
    added when absent, [properties] when present is replaced by its
    compression, and every member other than these two keeps its value. *)
Theorem process_feature_keeps_other_members (f : dict) (feature' : json) :
  process_feature (JObj f) = Ok feature' ->
  exists f' : dict,
    feature' = JObj f' /\
    keys f' = keys f /\
    (forall k : string,
        k <> "properties" -> k <> "geometry" ->
        dict_get k f' = dict_get k f) /\
    match dict_get "properties" f with
    | None => dict_get "properties" f' = None
    | Some p =>
        exists c, compress_properties p = Ok c /\
                  dict_get "properties" f' = Some c
    end.
Proof.
  intros H. apply process_feature_inv in H as (f1 & H1 & H2).
  assert (K1 : keys f1 = keys f /\
               (forall k, k <> "properties" -> dict_get k f1 = dict_get k f) /\
               match dict_get "properties" f with
               | None => dict_get "properties" f1 = None
               | Some p =>
                   exists c, compress_properties p = Ok c /\
                             dict_get "properties" f1 = Some c
               end).
  { destruct (dict_get "properties" f) as [p|] eqn:Ep.
    - destruct H1 as (c & Hc & ->). split; [|split].
      + now apply (keys_dict_set_present _ _ p).
      + intros k Hk. now apply dict_get_set_ne.
      + exists c. split; [exact Hc | apply dict_get_set_eq].
    - subst f1. now repeat split. }
  destruct K1 as (Kk & Kf & Kp).
  assert (Hdone : feature' = JObj f1 ->
                  exists f', feature' = JObj f' /\ keys f' = keys f /\
                    (forall k, k <> "properties" -> k <> "geometry" ->
                               dict_get k f' = dict_get k f) /\
                    match dict_get "properties" f with
                    | None => dict_get "properties" f' = None
                    | Some p => exists c, compress_properties p = Ok c /\
                                          dict_get "properties" f' = Some c
                    end).
  { intros ->. exists f1. repeat split; auto. }
  destruct (dict_get "geometry" f1) as [g|] eqn:Eg; [|now apply Hdone].
  destruct (truthy g); [|now apply Hdone].
  destruct H2 as (has & _ & H2). destruct has; [|now apply Hdone].
  destruct H2 as (co & r & g' & _ & _ & _ & ->).
  exists (dict_set "geometry" g' f1). split; [reflexivity|]. split; [|split].
  - rewrite (keys_dict_set_present _ _ g); [exact Kk | exact Eg].
  - intros k Hp Hg. rewrite dict_get_set_ne by exact Hg. now apply Kf.
  - destruct (dict_get "properties" f) as [p|].
    + destruct Kp as (c & Hc & Hget). exists c. split; [exact Hc|].
      rewrite dict_get_set_ne; [exact Hget | discriminate].
    + rewrite dict_get_set_ne; [exact Kp | discriminate].
Qed.

(** On a feature object, when the loop body returns: a geometry that is an
    object with a [coordinates] member comes back with that member replaced
    by its rounding and every other member (its [type], say) as it was; a
    geometry that is null or empty, or has no [coordinates], comes back
    unchanged; and an absent geometry stays absent. *)
Theorem process_feature_geometry (f : dict) (feature' : json) :
  process_feature (JObj f) = Ok feature' ->
  exists f' : dict,
    feature' = JObj f' /\
    match dict_get "geometry" f with
    | None => dict_get "geometry" f' = None
    | Some (JObj gd) =>
        match dict_get "coordinates" gd with
        | Some co =>
            exists r : json,
              round_coordinates default_precision co = Ok r /\
              dict_get "geometry" f' =
                Some (JObj (dict_set "coordinates" r gd)) /\
              keys (dict_set "coordinates" r gd) = keys gd /\
              forall k : string,
                k <> "coordinates" ->
                dict_get k (dict_set "coordinates" r gd) = dict_get k gd
        | None => dict_get "geometry" f' = Some (JObj gd)
        end
    | Some g => dict_get "geometry" f' = Some g
    end.
Proof.
  intros H. apply process_feature_inv in H as (f1 & H1 & H2).
  assert (Hg1 : dict_get "geometry" f1 = dict_get "geometry" f).
  { destruct (dict_get "properties" f) as [p|].
    - destruct H1 as (c & _ & ->). apply dict_get_set_ne. discriminate.
    - now subst f1. }
  rewrite Hg1 in H2.
  destruct (dict_get "geometry" f) as [g|] eqn:Eg.
  2:{ subst feature'. exists f1. split; [reflexivity|]. exact Hg1. }
  assert (Hsame : feature' = JObj f1 ->
                  exists f', feature' = JObj f' /\
                             dict_get "geometry" f' = Some g).
  { intros ->. now exists f1. }
  destruct (truthy g) eqn:Et.
  - destruct H2 as (has & Hhas & H2).
    destruct g as [| b | z | fl | s | l | gd];
      try (destruct has;
           [destruct H2 as (co & r & g' & Hco & _); discriminate Hco
           | destruct (Hsame H2) as (f' & -> & Hf'); now exists f']).
    cbn [py_contains] in Hhas. injection Hhas as <-. unfold dict_mem in H2.
    destruct (dict_get "coordinates" gd) as [co|] eqn:Eco.
    + destruct H2 as (co' & r & g' & Hco & Hr & Hset & ->).
      cbn [py_getitem] in Hco. rewrite Eco in Hco. injection Hco as <-.
      cbn [py_setitem] in Hset. injection Hset as <-.
      exists (dict_set "geometry" (JObj (dict_set "coordinates" r gd)) f1).
      split; [reflexivity|]. exists r. split; [exact Hr|].
      split; [apply dict_get_set_eq|]. split.
      * now apply (keys_dict_set_present _ _ co).
      * intros k Hk. now apply dict_get_set_ne.
    + destruct (Hsame H2) as (f' & -> & Hf'). now exists f'.
  - destruct (Hsame H2) as (f' & -> & Hf'). exists f'.
    split; [reflexivity|].
    destruct g as [| b | z | fl | s | l | gd]; try exact Hf'.
    destruct gd; [exact Hf' | discriminate Et].
Qed.

(** ** The transform never raises on a well-formed document *)

Lemma wf_coordinates_returns (coords : json) :
  wf_coordinates coords = true ->
  exists r, round_coordinates default_precision coords = Ok r.
Proof.
  unfold wf_coordinates. rewrite !andb_true_iff.
  intros ((((Hl & Hn) & Hc) & Hr) & Hb).
  rewrite forallb_forall in Hr, Hb.
  apply round_coordinates_returns_on; auto; now apply Forall_forall.
Qed.

Lemma wf_properties_returns (props : json) :
  wf_properties props = true -> exists c, compress_properties props = Ok c.
Proof.
  destruct props as [| | | | | | d]; try discriminate; intros _.
  - now exists (JObj []).
  - exists (JObj (compress_entries d)). apply compress_properties_dict.
Qed.

Lemma process_feature_returns (feature : json) :
  wf_feature feature = true -> exists feature', process_feature feature = Ok feature'.
Proof.
  destruct feature as [| | | | | | f]; try discriminate.
  cbn [wf_feature]. rewrite andb_true_iff. intros [Hp Hg].
  unfold process_feature. cbn [py_contains bind py_getitem].
  assert (Hstep : exists f1,
             (if dict_mem "properties" f
              then props <- match dict_get "properties" f with
                            | Some x => Ok x
                            | None => Raise KeyError
                            end ;;
                   compressed <- compress_properties props ;;
                   py_setitem (JObj f) "properties" compressed
              else Ok (JObj f)) = Ok (JObj f1) /\
             dict_get "geometry" f1 = dict_get "geometry" f).
  { unfold dict_mem. destruct (dict_get "properties" f) as [p|].
    - destruct (wf_properties_returns p Hp) as [c Hc]. cbn [bind].
      rewrite Hc. cbn [bind py_setitem].
      exists (dict_set "properties" c f). split; [reflexivity|].
      apply dict_get_set_ne. discriminate.
    - now exists f. }
  destruct Hstep as (f1 & -> & Hg1). cbn [bind py_contains py_getitem].
  unfold dict_mem. rewrite Hg1.
  destruct (dict_get "geometry" f) as [g|]; [|now exists (JObj f1)].
  cbn [bind]. destruct g as [| | | | | | gd]; try discriminate Hg.
  - now exists (JObj f1).
  - destruct (truthy (JObj gd)); [|now exists (JObj f1)].
    cbn [py_contains bind py_getitem]. unfold dict_mem.
    cbn [wf_geometry] in Hg.
    destruct (dict_get "coordinates" gd) as [co|]; [|now exists (JObj f1)].
    cbn [bind]. destruct (wf_coordinates_returns co Hg) as [r ->].
    cbn [bind py_setitem]. eexists. reflexivity.
Qed.

(** The transform returns on every well-formed document: it can raise only
    on a document that is not an object, whose [features] is not a list, or
    one of whose features is malformed (not an object, [properties] neither
    null nor an object, [geometry] neither null nor an object, or coordinates
    that are not a nested list of numbers without an empty list). *)
Theorem transform_returns_on_well_formed (data : json) :
  wf_document data = true -> exists data', transform data = Ok data'.
Proof.
  destruct data as [| | | | | | kvs]; try discriminate.
  cbn [wf_document]. unfold transform. cbn [py_contains bind py_getitem].
  unfold dict_mem.
  destruct (dict_get "features" kvs) as [fs|]; [|now exists (JObj kvs)].
  destruct fs as [| | | | | l |]; try discriminate. intros Hwf.
  rewrite forallb_forall in Hwf. cbn [bind process_features].
  destruct (mapM_total process_feature l) as [l' ->].
  - intros x Hx. apply process_feature_returns. now apply Hwf.
  - cbn [bind py_setitem]. eexists. reflexivity.
Qed.

(** ** compress_geojson and the files *)

Section PipelineProperties.

Variable json_load : string -> result json.
Variable json_dump : json -> string.

Lemma compress_geojson_inv
      (input_path output_path : string) (w w' : world) (o c : nat) :
  compress_geojson json_load json_dump input_path output_path w
    = Ok (w', (o, c)) ->
  exists (text : string) (data data' : json),
    file_get input_path (files w) = Some text /\
    json_load text = Ok data /\
    transform data = Ok data' /\
    files w' = file_put output_path (json_dump data') (files w) /\
    dir_exists w' = dir_exists w /\
    trace w' =
      trace w ++
      [ Printed (MsgCompressing input_path);
        ReadFile input_path;
        WriteFile output_path (json_dump data');
        StatFile input_path;
        StatFile output_path;
        Printed (MsgOriginal o);
        Printed (MsgCompressed c);
        Printed (MsgReduction o c) ] /\
    file_get input_path (file_put output_path (json_dump data') (files w))
      = Some (if String.eqb input_path output_path
              then json_dump data' else text) /\
    o = String.length (if String.eqb input_path output_path
                       then json_dump data' else text) /\
    c = String.length (json_dump data') /\
    o <> 0.
Proof.
  unfold compress_geojson, read_file. cbn [files emit].
  destruct (file_get input_path (files w)) as [text|] eqn:Eg;
    cbn [bind]; [|discriminate].
  destruct (json_load text) as [data|e] eqn:El; cbn [bind]; [|discriminate].
  destruct (transform data) as [data'|e] eqn:Et; cbn [bind]; [|discriminate].
  unfold stat_size, write_file. cbn [files emit].
  assert (Hin : file_get input_path
                  (file_put output_path (json_dump data') (files w))
                = Some (if String.eqb input_path output_path
                        then json_dump data' else text)).
  { destruct (String.eqb_spec input_path output_path) as [->|Hne].
    - apply file_get_put_eq.
    - now rewrite file_get_put_ne. }
  rewrite Hin. cbn [bind files emit]. rewrite file_get_put_eq. cbn [bind].
  destruct (String.length _) as [|n] eqn:En at 1; [discriminate|].
  intros H. injection H as <- <- <-. exists text, data, data'.
  cbn [files dir_exists trace emit]. rewrite <- !app_assoc. cbn [app].
  rewrite En. repeat split; try assumption; try reflexivity.
  discriminate.
Qed.

(** When [compress_geojson] returns, it has read the input, and the only
    file that differs afterwards is the output path, which holds the compact
    dump of the transformed document; the second size returned is the length
    of that dump. *)
Theorem compress_geojson_writes_only_output
        (input_path output_path : string) (w w' : world) (o c : nat) :
  compress_geojson json_load json_dump input_path output_path w
    = Ok (w', (o, c)) ->
  exists (text : string) (data data' : json),
    file_get input_path (files w) = Some text /\
    json_load text = Ok data /\
    transform data = Ok data' /\
    file_get output_path (files w') = Some (json_dump data') /\
    c = String.length (json_dump data') /\
    written_paths (trace w') = written_paths (trace w) ++ [output_path] /\
    forall path : string,
      path <> output_path ->
      file_get path (files w') = file_get path (files w).
Proof.
  intros H. apply compress_geojson_inv in H
    as (text & data & data' & Hg & Hl & Ht & Hf & _ & Htr & _ & _ & Hc & _).
  exists text, data, data'. repeat split; try assumption.
  - rewrite Hf. apply file_get_put_eq.
  - rewrite Htr. unfold written_paths. rewrite flat_map_app. reflexivity.
  - intros path Hne. rewrite Hf. now apply file_get_put_ne.
Qed.

End PipelineProperties.

(** ** The batch runner *)


Lemma In_insert_sorted (x y : string) (l : list string) :
  In x (insert_sorted y l) <-> x = y \/ In x l.
Proof.
  induction l as [|z l IH]; simpl; [intuition congruence|].
  destruct (String.leb y z); simpl; [intuition congruence|].
  rewrite IH. intuition congruence.
Qed.

Lemma In_sorted (x : string) (l : list string) : In x (sorted l) <-> In x l.
Proof.
  unfold sorted. induction l as [|y l IH]; simpl; [tauto|].
  rewrite In_insert_sorted, IH. intuition congruence.
Qed.

Lemma NoDup_insert_sorted (y : string) (l : list string) :
  ~ In y l -> NoDup l -> NoDup (insert_sorted y l).
Proof.
  induction l as [|z l IH]; simpl; intros Hin Hnd.
  - constructor; [tauto | constructor].
  - destruct (String.leb y z).
    + constructor; [simpl; tauto | exact Hnd].
    + inversion Hnd as [|? ? Hz Hl]; subst. constructor.
      * rewrite In_insert_sorted. intros [->|H]; tauto.
      * apply IH; tauto.
Qed.

Lemma NoDup_sorted (l : list string) : NoDup l -> NoDup (sorted l).
Proof.
  unfold sorted. induction 1 as [|y l Hy Hl IH]; simpl; [constructor|].
  apply NoDup_insert_sorted; [|exact IH].
  intros H. apply Hy. now apply In_sorted.
Qed.

Lemma HdRel_insert_sorted (a x : string) (l : list string) :
  String.leb a x = true ->
  HdRel (fun s1 s2 => String.leb s1 s2 = true) a l ->
  HdRel (fun s1 s2 => String.leb s1 s2 = true) a (insert_sorted x l).
Proof.
  intros Hax Hl. destruct l as [|z l]; simpl.
  - now constructor.
  - destruct (String.leb x z); constructor; [exact Hax|].
    now inversion Hl.
Qed.

Lemma Sorted_insert_sorted (x : string) (l : list string) :
  Sorted (fun s1 s2 => String.leb s1 s2 = true) l ->
  Sorted (fun s1 s2 => String.leb s1 s2 = true) (insert_sorted x l).
Proof.
  induction 1 as [|z l Hl IH Hz]; simpl.
  - repeat constructor.
  - destruct (String.leb x z) eqn:E.
    + constructor; [now constructor | now constructor].
    + constructor; [exact IH|]. apply HdRel_insert_sorted; [|exact Hz].
      destruct (String.leb_total x z) as [H|H]; [congruence | exact H].
Qed.

Lemma Sorted_sorted (l : list string) :
  Sorted (fun s1 s2 => String.leb s1 s2 = true) (sorted l).
Proof.
  unfold sorted. induction l as [|x l IH]; simpl; [constructor|].
  now apply Sorted_insert_sorted.
Qed.

Lemma file_get_Some_In (path text : string) (fs : list (string * string)) :
  file_get path fs = Some text -> In path (map fst fs).
Proof.
  induction fs as [|[p c] fs IH]; simpl; [discriminate|].
  destruct (String.eqb_spec path p) as [->|Hne]; [now left|].
  intros H. right. now apply IH.
Qed.

Lemma glob_districts_In (name : string) (w : world) :
  In name (glob_districts w) <->
  In name (map fst (files w)) /\ is_district_file name = true.
Proof. unfold glob_districts. rewrite In_sorted. apply filter_In. Qed.

Lemma NoDup_glob_districts (w : world) :
  NoDup (map fst (files w)) -> NoDup (glob_districts w).
Proof. intros H. apply NoDup_sorted. now apply NoDup_filter. Qed.

Lemma compressed_names_app (tr1 tr2 : list event) :
  compressed_names (tr1 ++ tr2) = compressed_names tr1 ++ compressed_names tr2.
Proof. apply flat_map_app. Qed.

Section BatchProperties.

Variable json_load : string -> result json.
Variable json_dump : json -> string.

(** What the loop of [main] leaves behind, whatever the list of names. *)
Lemma compress_all_inv (l : list string) :
  forall (w w' : world) (t_o t_c t_o' t_c' : nat),
    compress_all json_load json_dump l (w, (t_o, t_c)) = Ok (w', (t_o', t_c')) ->
    dir_exists w' = dir_exists w /\
    (forall name, ~ In name l ->
                  file_get name (files w') = file_get name (files w)) /\
    t_o' + t_c = t_c' + t_o /\
    List.length l + t_o <= t_o' /\
    compressed_names (trace w') = compressed_names (trace w) ++ l /\
    written_paths (trace w') = written_paths (trace w) ++ l.
Proof.
  induction l as [|f l IH]; intros w w' t_o t_c t_o' t_c'.
  - cbn [compress_all]. intros [= <- <- <-]. rewrite !app_nil_r.
    cbn [List.length]. repeat split; try reflexivity; lia.
  - cbn [compress_all].
    destruct (compress_geojson json_load json_dump f f w)
      as [[w1 [o c]]|e] eqn:E; cbn [bind]; [|discriminate].
    intros H. apply IH in H as (Hd & Hf & Ht & Hlen & Hn & Hw).
    cbn [dir_exists files trace emit] in *.
    apply compress_geojson_inv in E
      as (text & data & data' & Hg & Hl & Htr & Hfs & Hd1 & Htrace
          & Hin & Ho & Hc & Hpos).
    rewrite String.eqb_refl in Ho.
    split; [congruence|]. split; [|split; [lia|split]].
    + intros name Hnin. rewrite Hf by (intros Hi; apply Hnin; now right).
      rewrite Hfs. apply file_get_put_ne. intros ->. apply Hnin. now left.
    + cbn [List.length]. lia.
    + split.
      * rewrite Hn, Htrace. unfold compressed_names.
        rewrite !flat_map_app. cbn. rewrite <- !app_assoc. reflexivity.
      * rewrite Hw, Htrace. unfold written_paths.
        rewrite !flat_map_app. cbn. rewrite <- !app_assoc. reflexivity.
Qed.

Lemma compress_all_rewrites (l : list string) :
  forall (w w' : world) (t_o t_c t_o' t_c' : nat),
    NoDup l ->
    compress_all json_load json_dump l (w, (t_o, t_c)) = Ok (w', (t_o', t_c')) ->
    forall name, In name l ->
      exists (text : string) (data data' : json),
        file_get name (files w) = Some text /\
        json_load text = Ok data /\
        transform data = Ok data' /\
        file_get name (files w') = Some (json_dump data').
Proof.
  induction l as [|f l IH]; intros w w' t_o t_c t_o' t_c' Hnd H name Hin;
    [destruct Hin|].
  inversion Hnd as [|? ? Hf Hl]; subst.
  cbn [compress_all] in H.
  destruct (compress_geojson json_load json_dump f f w)
    as [[w1 [o c]]|e] eqn:E; cbn [bind] in H; [|discriminate H].
  apply compress_geojson_inv in E
    as (text & data & data' & Hg & Hld & Htr & Hfs & _).
  destruct Hin as [<-|Hin].
  - exists text, data, data'. repeat split; try assumption.
    apply compress_all_inv in H as (_ & Hframe & _).
    rewrite (Hframe f Hf). cbn [files emit]. rewrite Hfs.
    apply file_get_put_eq.
  - destruct (IH _ _ _ _ _ _ Hl H name Hin)
      as (text' & d & d' & Hg' & Hl' & Ht' & Hfinal).
    exists text', d, d'. repeat split; try assumption.
    cbn [files emit] in Hg'. rewrite Hfs in Hg'.
    rewrite file_get_put_ne in Hg'; [exact Hg'|].
    intros ->. contradiction.
Qed.

(** The three ways [main] returns. *)
Lemma main_inv (w w' : world) :
  main json_load json_dump w = Ok w' ->
  (dir_exists w = false /\ w' = emit (Printed MsgDirNotFound) w) \/
  (dir_exists w = true /\ glob_districts w = [] /\
   w' = emit (Printed MsgNoFiles) w) \/
  (dir_exists w = true /\ glob_districts w <> [] /\
   exists (w1 : world) (t_o t_c : nat),
     compress_all json_load json_dump (glob_districts w)
       (emit (Printed (MsgFound (List.length (glob_districts w)))) w, (0, 0))
     = Ok (w1, (t_o, t_c)) /\
     t_o <> 0 /\
     files w' = files w1 /\
     dir_exists w' = dir_exists w1 /\
     trace w' =
       trace w1 ++
       [ Printed MsgRule; Printed MsgSummaryTitle; Printed MsgRule;
         Printed (MsgTotalOriginal t_o);
         Printed (MsgTotalCompressed t_c);
         Printed (MsgTotalReduction t_o t_c);
         Printed (MsgSpaceSaved t_o t_c) ]).
Proof.
  unfold main. destruct (dir_exists w) eqn:Ed; cbn [negb].
  - destruct (glob_districts w) as [|f l] eqn:Eg.
    + intros [= <-]. right. left. now repeat split.
    + destruct (compress_all json_load json_dump (f :: l) _)
        as [[w1 [t_o t_c]]|e] eqn:E; cbn [bind]; [|discriminate].
      destruct t_o as [|n]; [discriminate|]. intros [= <-].
      right. right. split; [reflexivity|]. split; [discriminate|].
      exists w1, (S n), t_c. split; [reflexivity|]. split; [discriminate|].
      cbn [files dir_exists trace emit]. rewrite <- !app_assoc.
      now repeat split.
  - intros [= <-]. now left.
Qed.

(** [main] changes no file other than the ones named
    [district_*.geojson]: when it returns, every other file of the directory
    holds what it held, and the paths written to are exactly the district
    files, each once, in the order in which they were processed. *)
Theorem main_touches_only_district_files (w w' : world) :
  main json_load json_dump w = Ok w' ->
  dir_exists w' = dir_exists w /\
  (forall name : string,
      is_district_file name = false ->
      file_get name (files w') = file_get name (files w)) /\
  written_paths (trace w') =
    written_paths (trace w) ++
    (if dir_exists w then glob_districts w else []).
Proof.
  intros H. apply main_inv in H
    as [[Hd ->]|[(Hd & Hg & ->)|(Hd & Hg & w1 & t_o & t_c & Hall & _ & Hf & Hd' & Ht)]].
  - rewrite Hd. cbn [emit dir_exists files trace]. unfold written_paths.
    rewrite flat_map_app. now repeat split.
  - rewrite Hd, Hg. cbn [emit dir_exists files trace]. unfold written_paths.
    rewrite flat_map_app. now repeat split.
  - apply compress_all_inv in Hall as (Hdw & Hframe & _ & _ & _ & Hw).
    cbn [emit dir_exists files trace] in *. rewrite Hd.
    split; [congruence|]. split.
    + intros name Hn. rewrite Hf. apply Hframe.
      rewrite glob_districts_In. intros [_ Hy]. congruence.
    + rewrite Ht. unfold written_paths in *. rewrite flat_map_app, Hw.
      rewrite flat_map_app. cbn. now rewrite !app_nil_r.
Qed.

(** When the names of the directory are distinct and [main] returns from a
    directory that exists, every file named [district_*.geojson] had text
    that [json.load] accepts and a document that the transform accepts, and
    it now holds the compact dump of the transformed document. *)
Theorem main_rewrites_every_district_file (w w' : world) :
  NoDup (map fst (files w)) ->
  dir_exists w = true ->
  main json_load json_dump w = Ok w' ->
  forall name text : string,
    is_district_file name = true ->
    file_get name (files w) = Some text ->
    exists data data' : json,
      json_load text = Ok data /\
      transform data = Ok data' /\
      file_get name (files w') = Some (json_dump data').
Proof.
  intros Hnd Hd H name text Hname Hget.
  assert (Hin : In name (glob_districts w)).
  { apply glob_districts_In. split; [|exact Hname].
    now apply (file_get_Some_In name text). }
  apply main_inv in H
    as [[Hd' _]|[(_ & Hg & _)|(_ & _ & w1 & t_o & t_c & Hall & _ & Hf & _)]].
  - congruence.
  - rewrite Hg in Hin. destruct Hin.
  - destruct (compress_all_rewrites _ _ _ _ _ _ _
                (NoDup_glob_districts w Hnd) Hall name Hin)
      as (text' & data & data' & Hg' & Hl & Ht & Hfinal).
    cbn [files emit] in Hg'. rewrite Hget in Hg'. injection Hg' as <-.
    exists data, data'. repeat split; try assumption. now rewrite Hf.
Qed.

(** Whenever [main] gets through a batch, its summary reports a total
    original size equal to the total compressed size: both totals are sums of
    sizes measured after the files were rewritten. *)
Theorem main_summary_totals_are_equal (w w' : world) :
  dir_exists w = true ->
  glob_districts w <> [] ->
  main json_load json_dump w = Ok w' ->
  exists (before : list event) (total : nat),
    total <> 0 /\
    trace w' =
      before ++
      [ Printed MsgRule; Printed MsgSummaryTitle; Printed MsgRule;
        Printed (MsgTotalOriginal total);
        Printed (MsgTotalCompressed total);
        Printed (MsgTotalReduction total total);
        Printed (MsgSpaceSaved total total) ].
Proof.
  intros Hd Hg H. apply main_inv in H
    as [[Hd' _]|[(_ & Hg' & _)|(_ & _ & w1 & t_o & t_c & Hall & Hpos & _ & _ & Ht)]];
    try congruence.
  apply compress_all_inv in Hall as (_ & _ & Heq & _).
  assert (t_c = t_o) by lia. subst t_c.
  now exists (trace w1), t_o.
Qed.

(** [main] goes through the district files in ascending order of name,
    each one once: the "Compressing" lines of a run that returns name exactly
    the files of the directory that match [district_*.geojson], sorted. *)
Theorem main_processes_in_ascending_order (w w' : world) :
  dir_exists w = true ->
  main json_load json_dump w = Ok w' ->
  compressed_names (trace w') = compressed_names (trace w) ++ glob_districts w /\
  Sorted (fun s1 s2 => String.leb s1 s2 = true) (glob_districts w) /\
  (forall name : string,
      In name (glob_districts w) <->
      In name (map fst (files w)) /\ is_district_file name = true) /\
  (NoDup (map fst (files w)) -> NoDup (glob_districts w)).
Proof.
  intros Hd H. split; [|split; [apply Sorted_sorted|split]].
  - apply main_inv in H
      as [[Hd' _]|[(_ & Hg & ->)|(_ & _ & w1 & t_o & t_c & Hall & _ & _ & _ & Ht)]].
    + congruence.
    + rewrite Hg. cbn [emit trace]. rewrite compressed_names_app.
      reflexivity.
    + apply compress_all_inv in Hall as (_ & _ & _ & _ & Hn & _).
      cbn [emit trace] in Hn. rewrite Ht, compressed_names_app, Hn.
      rewrite compressed_names_app. cbn. now rewrite !app_nil_r.
  - intros name. apply glob_districts_In.
  - apply NoDup_glob_districts.
Qed.

(** One district file that does not load or transform aborts the whole run:
    with distinct names and an existing directory, if [json.load] or the
    transform rejects what some file named [district_*.geojson] holds, [main]
    does not return but raises. *)
Theorem main_aborts_on_a_rejected_file (w : world) (name text : string) :
  NoDup (map fst (files w)) ->
  dir_exists w = true ->
  is_district_file name = true ->
  file_get name (files w) = Some text ->
  ~ (exists data data' : json,
        json_load text = Ok data /\ transform data = Ok data') ->
  exists e : exn, main json_load json_dump w = Raise e.
Proof.
  intros Hnd Hd Hname Hget Hrej.
  destruct (main json_load json_dump w) as [w'|e] eqn:H; [|now exists e].
  exfalso. apply Hrej.
  assert (Hin : In name (glob_districts w)).
  { apply glob_districts_In. split; [|exact Hname].
    now apply (file_get_Some_In name text). }
  apply main_inv in H
    as [[Hd' _]|[(_ & Hg & _)|(_ & _ & w1 & t_o & t_c & Hrun & _)]].
  - congruence.
  - rewrite Hg in Hin. destruct Hin.
  - destruct (compress_all_rewrites _ _ _ _ _ _ _
                (NoDup_glob_districts w Hnd) Hrun name Hin)
      as (text' & data & data' & Hg' & Hl & Ht & _).
    cbn [files emit] in Hg'. rewrite Hget in Hg'. injection Hg' as <-.
    now exists data, data'.
Qed.

End BatchProperties.

(** ** The file name pattern *)

Lemma string_length_append (s1 s2 : string) :
  String.length (String.append s1 s2) = String.length s1 + String.length s2.
Proof. induction s1 as [|a s1 IH]; simpl; [reflexivity | now rewrite IH]. Qed.

Lemma string_append_assoc (s1 s2 s3 : string) :
  String.append (String.append s1 s2) s3 = String.append s1 (String.append s2 s3).
Proof. induction s1 as [|a s1 IH]; simpl; [reflexivity | now rewrite IH]. Qed.

Lemma prefix_append (p s : string) :
  String.prefix p s = true <-> exists r, s = String.append p r.
Proof.
  revert s. induction p as [|a p IH]; intros s.
  - split; [intros _; now exists s | intros _; now destruct s].
  - destruct s as [|b s]; simpl.
    + split; [discriminate | intros [r H]; discriminate H].
    + destruct (Ascii.ascii_dec a b) as [->|Hne].
      * rewrite IH. split; intros [r H]; exists r; congruence.
      * split; [discriminate | intros [r H]; congruence].
Qed.

Lemma substring_skip (p r : string) (k m : nat) :
  String.substring (String.length p + k) m (String.append p r)
  = String.substring k m r.
Proof. induction p as [|a p IH]; simpl; [reflexivity | exact IH]. Qed.

Lemma substring_whole (s : string) :
  String.substring 0 (String.length s) s = s.
Proof. induction s as [|a s IH]; simpl; [reflexivity | now rewrite IH]. Qed.

Lemma substring_split (s : string) (n : nat) :
  n <= String.length s ->
  s = String.append (String.substring 0 n s)
                    (String.substring n (String.length s - n) s).
Proof.
  revert n. induction s as [|a s IH]; intros n Hn.
  - destruct n; [reflexivity | simpl in Hn; lia].
  - destruct n as [|n].
    + cbn [String.substring String.append].
      change (String.length (String a s) - 0) with (S (String.length s)).
      cbn [String.substring]. now rewrite substring_whole.
    + simpl in Hn. cbn [String.substring String.append String.length].
      rewrite Nat.sub_succ. f_equal. apply IH. lia.
Qed.

Lemma ends_with_append (suffix s : string) :
  ends_with suffix s = true <-> exists r, s = String.append r suffix.
Proof.
  unfold ends_with. rewrite andb_true_iff, Nat.leb_le, String.eqb_eq. split.
  - intros [Hlen Hsub].
    exists (String.substring 0 (String.length s - String.length suffix) s).
    pose proof (substring_split s (String.length s - String.length suffix)
                  ltac:(lia)) as Hs.
    replace (String.length s - (String.length s - String.length suffix))
      with (String.length suffix) in Hs by lia.
    rewrite Hsub in Hs. exact Hs.
  - intros [r ->]. rewrite string_length_append. split; [lia|].
    replace (String.length r + String.length suffix - String.length suffix)
      with (String.length r + 0) by lia.
    rewrite substring_skip. apply substring_whole.
Qed.

(** The name test of the batch runner is the pattern
    [district_*.geojson]: a name passes exactly when it is [district_],
    then any text (possibly none), then [.geojson]. *)
Theorem is_district_file_iff (name : string) :
  is_district_file name = true <->
  exists middle : string,
    name = String.append "district_" (String.append middle ".geojson").
Proof.
  unfold is_district_file. rewrite !andb_true_iff, Nat.leb_le. split.
  - intros [[Hp He] Hlen]. apply prefix_append in Hp as [r ->].
    rewrite string_length_append in Hlen.
    change (String.length "district_") with 9 in Hlen.
    change (String.length ".geojson") with 8 in Hlen.
    unfold ends_with in He. rewrite andb_true_iff, String.eqb_eq in He.
    destruct He as [_ He]. rewrite string_length_append in He.
    change (String.length ".geojson") with 8 in He.
    replace (String.length "district_" + String.length r - 8)
      with (String.length "district_" + (String.length r - 8)) in He
      by (change (String.length "district_") with 9; lia).
    rewrite substring_skip in He.
    exists (String.substring 0 (String.length r - 8) r). f_equal.
    pose proof (substring_split r (String.length r - 8) ltac:(lia)) as Hs.
    replace (String.length r - (String.length r - 8)) with 8 in Hs by lia.
    rewrite He in Hs. exact Hs.
  - intros [middle ->]. split; [split|].
    + apply prefix_append. now eexists.
    + apply ends_with_append. exists (String.append "district_" middle).
      now rewrite string_append_assoc.
    + rewrite !string_length_append. lia.
Qed.

(** ** Rounded floats are binary64 again *)

Local Open Scope Z_scope.

Lemma shift_ratio_pos (p q e : Z) :
  0 <= p -> 0 < q ->
  0 <= fst (shift_ratio p q e) /\ 0 < snd (shift_ratio p q e).
Proof.
  intros Hp Hq. unfold shift_ratio. destruct (Z.leb_spec 0 e); cbn [fst snd].
  - pose proof (Z.pow_pos_nonneg 2 e ltac:(lia) ltac:(lia)). nia.
  - pose proof (Z.pow_pos_nonneg 2 (- e) ltac:(lia) ltac:(lia)). nia.
Qed.

(** A larger exponent makes the ratio smaller. *)
Lemma shift_ratio_mono (p q e e' k : Z) :
  0 <= p -> 0 < q -> 0 <= k -> e <= e' ->
  fst (shift_ratio p q e) <= k * snd (shift_ratio p q e) ->
  fst (shift_ratio p q e') <= k * snd (shift_ratio p q e').
Proof.
  intros Hp Hq Hk He. unfold shift_ratio.
  destruct (Z.leb_spec 0 e), (Z.leb_spec 0 e'); cbn [fst snd]; try lia.
  - assert (Hpow : 2 ^ e <= 2 ^ e') by (apply Z.pow_le_mono_r; lia).
    pose proof (Z.pow_pos_nonneg 2 e ltac:(lia) ltac:(lia)).
    intros H'. transitivity (k * (q * 2 ^ e)); [exact H'|].
    apply Z.mul_le_mono_nonneg_l; [lia|].
    apply Z.mul_le_mono_nonneg_l; lia.
  - pose proof (Z.pow_pos_nonneg 2 (- e) ltac:(lia) ltac:(lia)).
    pose proof (Z.pow_pos_nonneg 2 e' ltac:(lia) ltac:(lia)).
    intros H'. transitivity (p * 2 ^ (- e)); [nia|].
    transitivity (k * q); [exact H'|].
    apply Z.mul_le_mono_nonneg_l; [lia | nia].
  - assert (Hpow : 2 ^ (- e') <= 2 ^ (- e)) by (apply Z.pow_le_mono_r; lia).
    intros H'. transitivity (p * 2 ^ (- e)); [|exact H'].
    apply Z.mul_le_mono_nonneg_l; lia.
Qed.

(** With the exponent read off the two logarithms the ratio is below
    [2^53]. *)
Lemma shift_ratio_log2 (p q : Z) :
  0 < p -> 0 < q ->
  fst (shift_ratio p q (Z.log2 p - Z.log2 q - 52))
  <= 2 ^ 53 * snd (shift_ratio p q (Z.log2 p - Z.log2 q - 52)).
Proof.
  intros Hp Hq.
  pose proof (Z.log2_spec p Hp) as [_ Hpu].
  pose proof (Z.log2_spec q Hq) as [Hql _].
  pose proof (Z.log2_nonneg p) as Hlp. pose proof (Z.log2_nonneg q) as Hlq.
  unfold shift_ratio.
  destruct (Z.leb_spec 0 (Z.log2 p - Z.log2 q - 52)) as [He|He];
    cbn [fst snd].
  - assert (Hsplit : 2 ^ Z.succ (Z.log2 p)
                     = 2 ^ 53 * (2 ^ Z.log2 q
                                 * 2 ^ (Z.log2 p - Z.log2 q - 52))).
    { rewrite <- !Z.pow_add_r by lia. f_equal. lia. }
    pose proof (Z.pow_pos_nonneg 2 (Z.log2 p - Z.log2 q - 52)
                  ltac:(lia) ltac:(lia)) as Hpos.
    transitivity (2 ^ Z.succ (Z.log2 p)); [lia|]. rewrite Hsplit.
    apply Z.mul_le_mono_nonneg_l; [lia|].
    apply Z.mul_le_mono_nonneg_r; lia.
  - assert (Hsplit : 2 ^ Z.succ (Z.log2 p)
                     * 2 ^ (- (Z.log2 p - Z.log2 q - 52))
                     = 2 ^ 53 * 2 ^ Z.log2 q).
    { rewrite <- !Z.pow_add_r by lia. f_equal. lia. }
    pose proof (Z.pow_pos_nonneg 2 (- (Z.log2 p - Z.log2 q - 52))
                  ltac:(lia) ltac:(lia)) as Hpos.
    transitivity (2 ^ Z.succ (Z.log2 p)
                  * 2 ^ (- (Z.log2 p - Z.log2 q - 52))).
    + apply Z.mul_le_mono_nonneg_r; lia.
    + rewrite Hsplit. apply Z.mul_le_mono_nonneg_l; lia.
Qed.

(** A finite result of the conversion has a mantissa below [2^53] and an
    exponent between [-1074] and [971]. *)
Lemma nearest_binary64_range (s s' : bool) (p q : Z) (m : positive) (e : Z) :
  0 <= p -> 0 < q ->
  nearest_binary64 s p q = S754_finite s' m e ->
  Z.pos m < 2 ^ 53 /\ -1074 <= e <= 971.
Proof.
  intros Hp Hq. unfold nearest_binary64.
  destruct (Z.eqb_spec p 0) as [|Hp0]; [discriminate|].
  set (e1 := Z.log2 p - Z.log2 q - 53).
  assert (Hlog : fst (shift_ratio p q (e1 + 1))
                 <= 2 ^ 53 * snd (shift_ratio p q (e1 + 1))).
  { replace (e1 + 1) with (Z.log2 p - Z.log2 q - 52) by (subst e1; lia).
    apply shift_ratio_log2; lia. }
  destruct (shift_ratio p q e1) as [p1 q1] eqn:E1.
  set (e2 := if q1 * 2 ^ 53 <=? p1 then e1 + 1 else e1).
  assert (He2 : fst (shift_ratio p q e2) <= 2 ^ 53 * snd (shift_ratio p q e2)).
  { subst e2. destruct (Z.leb_spec (q1 * 2 ^ 53) p1) as [Hc|Hc]; [exact Hlog|].
    rewrite E1. cbn [fst snd]. lia. }
  assert (HE : fst (shift_ratio p q (Z.max e2 (-1074)))
               <= 2 ^ 53 * snd (shift_ratio p q (Z.max e2 (-1074)))).
  { apply (shift_ratio_mono p q e2); lia. }
  pose proof (shift_ratio_pos p q (Z.max e2 (-1074)) Hp Hq) as [Hp2 Hq2].
  destruct (shift_ratio p q (Z.max e2 (-1074))) as [p2 q2].
  cbn [fst snd] in HE, Hp2, Hq2.
  pose proof (round_half_even_bounds p2 q2 Hp2 Hq2) as [Hm0 _].
  pose proof (round_half_even_le p2 q2 (2 ^ 53) Hq2 HE) as Hm1.
  set (m0 := round_half_even p2 q2) in *.
  destruct (Z.eqb_spec m0 (2 ^ 53)) as [Em|Em].
  - destruct (Z.eqb_spec (2 ^ 52) 0); [discriminate|].
    destruct (Z.ltb_spec 971 (Z.max e2 (-1074) + 1)); [discriminate|].
    intros [= _ <- <-]. split; [reflexivity | lia].
  - destruct (Z.eqb_spec m0 0); [discriminate|].
    destruct (Z.ltb_spec 971 (Z.max e2 (-1074))); [discriminate|].
    intros [= _ <- <-]. rewrite Z2Pos.id by lia. lia.
Qed.

Lemma float_round_binary64 (x r : spec_float) (ndigits : Z) :
  is_binary64 (JFloat x) = true ->
  float_round x ndigits = Ok r ->
  is_binary64 (JFloat r) = true.
Proof.
  intros Hx. unfold float_round.
  destruct x as [s | s | | s m e]; try (intros [= <-]; reflexivity).
  destruct (323 <? ndigits); [intros [= <-]; exact Hx|].
  destruct (ndigits <? -308); [intros [= <-]; reflexivity|].
  pose proof (shift_ratio_pos (Z.pos m) 1 (- e) ltac:(lia) ltac:(lia))
    as [Hp Hq].
  destruct (shift_ratio (Z.pos m) 1 (- e)) as [p q]. cbn [fst snd] in Hp, Hq.
  set (pq := if 0 <=? ndigits then (p * 10 ^ ndigits, q)
             else (p, q * 10 ^ (- ndigits))).
  assert (Hpq : 0 <= fst pq /\ 0 < snd pq).
  { subst pq. destruct (Z.leb_spec 0 ndigits); cbn [fst snd].
    - pose proof (Z.pow_pos_nonneg 10 ndigits ltac:(lia) ltac:(lia)). nia.
    - pose proof (Z.pow_pos_nonneg 10 (- ndigits) ltac:(lia) ltac:(lia)). nia. }
  destruct pq as [p' q']. cbn [fst snd] in Hpq. destruct Hpq as [Hp' Hq'].
  pose proof (round_half_even_bounds p' q' Hp' Hq') as [Hn _].
  set (n := round_half_even p' q') in *.
  unfold float_of_decimal.
  assert (Hfin : forall s0 m0 e0,
             (if 0 <=? - ndigits
              then nearest_binary64 s (n * 10 ^ (- ndigits)) 1
              else nearest_binary64 s n (10 ^ (- - ndigits)))
             = S754_finite s0 m0 e0 ->
             Z.pos m0 < 2 ^ 53 /\ -1074 <= e0 <= 971).
  { intros s0 m0 e0. destruct (Z.leb_spec 0 (- ndigits)).
    - apply nearest_binary64_range; [|lia].
      pose proof (Z.pow_pos_nonneg 10 (- ndigits) ltac:(lia) ltac:(lia)). nia.
    - apply nearest_binary64_range; [lia|].
      apply Z.pow_pos_nonneg; lia. }
  destruct (if 0 <=? - ndigits
            then nearest_binary64 s (n * 10 ^ (- ndigits)) 1
            else nearest_binary64 s n (10 ^ (- - ndigits)))
    as [s0 | s0 | | s0 m0 e0]; try (intros [= <-]; reflexivity).
  intros [= <-]. destruct (Hfin s0 m0 e0 eq_refl) as [Hm0 He0].
  cbn [is_binary64]. apply andb_true_iff. split.
  - now apply Z.ltb_lt.
  - apply Z.leb_le. lia.
Qed.

Local Close Scope Z_scope.

Lemma py_round_binary64 (precision : Z) (x y : json) :
  is_binary64 x = true -> py_round precision x = Ok y ->
  is_binary64 y = true.
Proof.
  destruct x as [| b | z | f | | |]; try discriminate; intros Hx; simpl.
  - destruct (0 <=? precision)%Z; intros [= <-]; reflexivity.
  - destruct (0 <=? precision)%Z; intros [= <-]; reflexivity.
  - destruct (float_round f precision) as [r|e] eqn:E; simpl; [|discriminate].
    intros [= <-]. now apply (float_round_binary64 f r precision).
Qed.

(** ** The output can be processed again *)

Lemma forallb_pointwise {A : Type} (f : A -> bool) (l l' : list A) :
  Forall2 (fun x y => f x = f y) l l' -> forallb f l = forallb f l'.
Proof.
  induction 1 as [|x y l l' Hxy _ IH]; simpl; [reflexivity|].
  now rewrite Hxy, IH.
Qed.

(** What the structural tests look at is the shape only. *)
Lemma shape_determines (a : json) :
  forall b : json,
    shape_of a = shape_of b ->
    is_list a = is_list b /\
    no_empty_list a = no_empty_list b /\
    level_consistent a = level_consistent b.
Proof.
  induction a as [| b0 | z | f | s | l IH | kvs _] using json_ind_nested;
    intros b Hs;
    try (destruct b; try discriminate Hs; now repeat split).
  destruct b as [| | | | | l' |]; try discriminate Hs.
  cbn [shape_of] in Hs. injection Hs as Hs.
  assert (HF : Forall2 (fun x y => is_list x = is_list y /\
                                   no_empty_list x = no_empty_list y /\
                                   level_consistent x = level_consistent y)
                       l l').
  { revert l' Hs. induction IH as [|x l Hx _ IHl]; intros l' Hs.
    - destruct l'; [constructor | discriminate Hs].
    - destruct l' as [|y l']; [discriminate Hs|].
      cbn [map] in Hs. injection Hs as Hxy Hs.
      constructor; [now apply Hx | now apply IHl]. }
  clear IH Hs. split; [reflexivity|].
  assert (H1 : forallb is_list l = forallb is_list l').
  { apply forallb_pointwise. eapply Forall2_impl; [|exact HF].
    now intros x y (H & _). }
  assert (H2 : forallb (fun c => negb (is_list c)) l
               = forallb (fun c => negb (is_list c)) l').
  { apply forallb_pointwise. eapply Forall2_impl; [|exact HF].
    intros x y (H & _). now rewrite H. }
  assert (H3 : forallb no_empty_list l = forallb no_empty_list l').
  { apply forallb_pointwise. eapply Forall2_impl; [|exact HF].
    now intros x y (_ & H & _). }
  assert (H4 : forallb level_consistent l = forallb level_consistent l').
  { apply forallb_pointwise. eapply Forall2_impl; [|exact HF].
    now intros x y (_ & _ & H). }
  split.
  - destruct HF; [reflexivity|]. exact H3.
  - cbn [level_consistent]. now rewrite H1, H2, H4.
Qed.

Lemma round_coordinates_closed (precision : Z) (t t' : json) :
  Forall (fun v => is_binary64 v = true) (leaves t) ->
  round_coordinates precision t = Ok t' ->
  is_list t' = true /\ no_empty_list t' = true /\
  level_consistent t' = true /\
  Forall (fun v => is_number v = true) (leaves t') /\
  Forall (fun v => is_binary64 v = true) (leaves t').
Proof.
  intros Hb H.
  destruct (round_coordinates_returns_only_on precision t t' H)
    as (Hl & Hn & Hc & _).
  pose proof (round_coordinates_shape_leaves precision t t' H) as Hsl.
  destruct Hsl as [Hs HF].
  destruct (shape_determines t' t Hs) as (E1 & E2 & E3).
  rewrite E1, E2, E3. repeat split; try assumption.
  - clear - HF. induction HF as [|x y l l' Hxy _ IH]; constructor.
    + now apply (py_round_Ok_leaf precision x y).
    + exact IH.
  - clear - HF Hb. induction HF as [|x y l l' Hxy _ IH]; constructor.
    + inversion Hb; subst. now apply (py_round_binary64 precision x y).
    + inversion Hb; subst. now apply IH.
Qed.

(** What the Coordinate Rounder returns it accepts again: the result is a
    list without an empty list, its leaves are all numbers (a boolean has
    become an int) and its floats are binary64, so that rounding it once more
    with the default precision returns. *)
Theorem round_coordinates_output_is_roundable (precision : Z) (t t' : json) :
  Forall (fun v => is_binary64 v = true) (leaves t) ->
  round_coordinates precision t = Ok t' ->
  is_list t' = true /\ no_empty_list t' = true /\
  level_consistent t' = true /\
  Forall (fun v => is_number v = true) (leaves t') /\
  Forall (fun v => is_binary64 v = true) (leaves t') /\
  exists t'' : json, round_coordinates default_precision t' = Ok t''.
Proof.
  intros Hb H.
  destruct (round_coordinates_closed precision t t' Hb H)
    as (Hl & Hn & Hc & Hnum & Hb').
  repeat split; try assumption.
  apply round_coordinates_returns_on; try assumption.
  rewrite Forall_forall in *. intros v Hv. specialize (Hnum v Hv).
  destruct v; try discriminate; reflexivity.
Qed.

Lemma compress_properties_Ok_dict (p c : json) :
  compress_properties p = Ok c -> exists d, c = JObj d.
Proof.
  unfold compress_properties. destruct (negb (truthy p)).
  - intros [= <-]. now exists [].
  - destruct p; try discriminate. intros [= <-]. eauto.
Qed.

Lemma wf_coordinates_closed (co r : json) :
  wf_coordinates co = true ->
  round_coordinates default_precision co = Ok r ->
  wf_coordinates r = true.
Proof.
  unfold wf_coordinates. rewrite !andb_true_iff.
  intros ((((Hl & Hn) & Hc) & Hr) & Hb) H.
  rewrite forallb_forall in Hb.
  destruct (round_coordinates_closed default_precision co r) as
    (Hl' & Hn' & Hc' & Hnum & Hb'); [now apply Forall_forall | exact H |].
  repeat split; try assumption.
  - apply forallb_forall. rewrite Forall_forall in Hnum. intros v Hv.
    specialize (Hnum v Hv). destruct v; try discriminate; reflexivity.
  - apply forallb_forall. now rewrite Forall_forall in Hb'.
Qed.

Lemma process_feature_wf (feature feature' : json) :
  wf_feature feature = true ->
  process_feature feature = Ok feature' ->
  wf_feature feature' = true.
Proof.
  destruct feature as [| | | | | | f]; try discriminate.
  cbn [wf_feature]. rewrite andb_true_iff. intros [Hp Hg] H.
  apply process_feature_inv in H as (f1 & H1 & H2).
  assert (W1 : match dict_get "properties" f1 with
               | Some props => wf_properties props
               | None => true
               end = true /\
               dict_get "geometry" f1 = dict_get "geometry" f).
  { destruct (dict_get "properties" f) as [p|] eqn:Ep.
    - destruct H1 as (c & Hc & ->). rewrite dict_get_set_eq.
      apply compress_properties_Ok_dict in Hc as [d ->].
      split; [reflexivity|]. apply dict_get_set_ne. discriminate.
    - subst f1. rewrite Ep. now split. }
  destruct W1 as [Wp Wg]. rewrite Wg in H2.
  assert (Hsame : feature' = JObj f1 -> wf_feature feature' = true).
  { intros ->. cbn [wf_feature]. rewrite Wp, Wg. exact Hg. }
  destruct (dict_get "geometry" f) as [g|] eqn:Eg; [|now apply Hsame].
  destruct (truthy g) eqn:Et; [|now apply Hsame].
  destruct H2 as (has & Hhas & H2). destruct has; [|now apply Hsame].
  destruct H2 as (co & r & g' & Hco & Hr & Hset & ->).
  destruct g as [| | | | | | gd]; try discriminate Hg; try discriminate Et.
  cbn [py_getitem] in Hco. cbn [wf_geometry] in Hg.
  destruct (dict_get "coordinates" gd) as [co'|]; [|discriminate Hco].
  injection Hco as ->. cbn [py_setitem] in Hset. injection Hset as <-.
  cbn [wf_feature]. rewrite dict_get_set_eq.
  rewrite dict_get_set_ne by discriminate. rewrite Wp. cbn [andb wf_geometry].
  rewrite dict_get_set_eq. now apply (wf_coordinates_closed co r).
Qed.

(** The transform keeps a document well-formed, so its output can be
    transformed again: on a well-formed document, whatever the transform
    returns is well-formed, and transforming that once more returns. *)
Theorem transform_preserves_well_formed (data data' : json) :
  wf_document data = true ->
  transform data = Ok data' ->
  wf_document data' = true /\
  exists data'' : json, transform data' = Ok data''.
Proof.
  intros Hwf H.
  assert (Hwf' : wf_document data' = true).
  { destruct data as [| | | | | | kvs]; try discriminate Hwf.
    apply transform_dict in H as [[_ ->]|(fs & fs' & Hg & Hp & ->)];
      [exact Hwf|].
    cbn [wf_document] in *. rewrite Hg in Hwf. rewrite dict_get_set_eq.
    destruct fs as [| | | | | l |]; try discriminate Hwf.
    cbn [process_features] in Hp.
    destruct (mapM process_feature l) as [l'|e] eqn:El; [|discriminate Hp].
    cbn [bind] in Hp. injection Hp as <-.
    apply mapM_Ok_Forall2 in El. rewrite forallb_forall in Hwf.
    apply forallb_forall. intros y Hy.
    clear Hg. induction El as [|x y' l l' Hxy _ IH]; [destruct Hy|].
    destruct Hy as [<-|Hy].
    - apply (process_feature_wf x); [|exact Hxy]. apply Hwf. now left.
    - apply IH; [|exact Hy]. intros z Hz. apply Hwf. now right. }
  split; [exact Hwf'|].
  destruct data' as [| | | | | | kvs']; try discriminate Hwf'.
  cbn [wf_document] in Hwf'. unfold transform.
  cbn [py_contains bind py_getitem]. unfold dict_mem.
  destruct (dict_get "features" kvs') as [fs|]; [|now exists (JObj kvs')].
  destruct fs as [| | | | | l |]; try discriminate Hwf'.
  rewrite forallb_forall in Hwf'. cbn [bind process_features].
  destruct (mapM_total process_feature l) as [l' ->].
  - intros x Hx. apply process_feature_returns. now apply Hwf'.
  - cbn [bind py_setitem]. eexists. reflexivity.
Qed.

(** ** The further properties on the sample inputs *)

Lemma NoDup_sample_props : NoDup (keys sample_props).
Proof.
  repeat constructor; cbn; intuition discriminate.
Qed.

Lemma compress_properties_values_pass_through_witness :
  dict_get "sn" (compress_entries sample_props) = Some (JStr "a") /\
  exists k0 : string,
    In (k0, JStr "a") sample_props /\
    JStr "a" <> JNull /\ JStr "a" <> JStr "" /\
    (map_lookup k0 PROPERTY_MAP = Some (Some "sn") \/
     (map_lookup k0 PROPERTY_MAP = None /\ "sn" = k0)).
Proof.
  split; [reflexivity|].
  exact (compress_properties_values_pass_through
           sample_props "sn" (JStr "a") eq_refl).
Defined.

Lemma compress_properties_keeps_unmapped_key_witness :
  dict_get "note" (compress_entries sample_props) = Some (JStr "tall").
Proof.
  rewrite (compress_properties_keeps_unmapped_key sample_props "note").
  - reflexivity.
  - exact NoDup_sample_props.
  - reflexivity.
  - cbn. intuition discriminate.
Defined.

Lemma round_sample_mixed_tree :
  round_coordinates default_precision sample_mixed_tree
  = Ok sample_mixed_tree_rounded.
Proof. vm_compute. reflexivity. Qed.

Lemma binary64_sample_mixed_tree :
  Forall (fun v => is_binary64 v = true) (leaves sample_mixed_tree).
Proof. repeat constructor. Qed.

Lemma round_coordinates_preserves_shape_witness :
  round_coordinates default_precision sample_mixed_tree
    = Ok sample_mixed_tree_rounded /\
  shape_of sample_mixed_tree_rounded = shape_of sample_mixed_tree /\
  List.length (leaves sample_mixed_tree_rounded)
    = List.length (leaves sample_mixed_tree).
Proof.
  split; [exact round_sample_mixed_tree|].
  destruct (round_coordinates_preserves_shape
              default_precision sample_mixed_tree sample_mixed_tree_rounded
              round_sample_mixed_tree) as (Hs & Hl & _).
  now split.
Defined.

Lemma round_coordinates_returns_iff_witness :
  (exists t', round_coordinates default_precision sample_mixed_tree = Ok t') <->
  (is_list sample_mixed_tree = true /\
   no_empty_list sample_mixed_tree = true /\
   level_consistent sample_mixed_tree = true /\
   Forall (fun v => is_round_leaf v = true) (leaves sample_mixed_tree)).
Proof.
  exact (round_coordinates_returns_iff sample_mixed_tree
           binary64_sample_mixed_tree).
Defined.

Lemma round_coordinates_fixes_ints_witness :
  round_coordinates default_precision sample_int_tree = Ok sample_int_tree.
Proof.
  apply round_coordinates_fixes_ints; try reflexivity.
  - discriminate.
  - repeat constructor.
Defined.

Lemma round_coordinates_output_is_roundable_witness :
  round_coordinates default_precision sample_mixed_tree
    = Ok sample_mixed_tree_rounded /\
  Forall (fun v => is_number v = true) (leaves sample_mixed_tree_rounded) /\
  exists t'' : json,
    round_coordinates default_precision sample_mixed_tree_rounded = Ok t''.
Proof.
  split; [exact round_sample_mixed_tree|].
  destruct (round_coordinates_output_is_roundable
              default_precision sample_mixed_tree sample_mixed_tree_rounded
              binary64_sample_mixed_tree round_sample_mixed_tree)
    as (_ & _ & _ & Hnum & _ & Hagain).
  now split.
Defined.

Lemma process_sample_point_feature :
  process_feature (JObj sample_point_feature)
  = Ok sample_point_feature_processed.
Proof. vm_compute. reflexivity. Qed.

Lemma process_feature_keeps_other_members_witness :
  process_feature (JObj sample_point_feature)
    = Ok sample_point_feature_processed /\
  exists f' : dict,
    sample_point_feature_processed = JObj f' /\
    keys f' = keys sample_point_feature /\
    dict_get "id" f' = Some (JInt 7).
Proof.
  split; [exact process_sample_point_feature|].
  destruct (process_feature_keeps_other_members
              sample_point_feature sample_point_feature_processed
              process_sample_point_feature) as (f' & E & Hk & Hframe & _).
  exists f'. split; [exact E|]. split; [exact Hk|].
  rewrite (Hframe "id"); [reflexivity | discriminate | discriminate].
Defined.

Lemma process_feature_geometry_witness :
  process_feature (JObj sample_point_feature)
    = Ok sample_point_feature_processed /\
  exists (f' : dict) (r : json),
    sample_point_feature_processed = JObj f' /\
    round_coordinates default_precision scenario3_input = Ok r /\
    dict_get "geometry" f'
      = Some (JObj (dict_set "coordinates" r sample_point_geometry)) /\
    dict_get "type" (dict_set "coordinates" r sample_point_geometry)
      = Some (JStr "Point").
Proof.
  split; [exact process_sample_point_feature|].
  destruct (process_feature_geometry
              sample_point_feature sample_point_feature_processed
              process_sample_point_feature) as (f' & E & Hg).
  change (exists r : json,
             round_coordinates default_precision scenario3_input = Ok r /\
             dict_get "geometry" f'
               = Some (JObj (dict_set "coordinates" r sample_point_geometry)) /\
             keys (dict_set "coordinates" r sample_point_geometry)
               = keys sample_point_geometry /\
             forall k : string,
               k <> "coordinates" ->
               dict_get k (dict_set "coordinates" r sample_point_geometry)
               = dict_get k sample_point_geometry) in Hg.
  destruct Hg as (r & Hr & Hget & _ & Hframe).
  exists f', r. split; [exact E|]. split; [exact Hr|]. split; [exact Hget|].
  rewrite (Hframe "type"); [reflexivity | discriminate].
Defined.

Lemma transform_returns_on_well_formed_witness :
  wf_document sample_document = true /\
  exists data', transform sample_document = Ok data'.
Proof.
  split; [reflexivity|].
  exact (transform_returns_on_well_formed sample_document eq_refl).
Defined.

Lemma transform_preserves_well_formed_witness :
  wf_document sample_document = true /\
  transform sample_document = Ok sample_document_transformed /\
  wf_document sample_document_transformed = true /\
  exists data'' : json, transform sample_document_transformed = Ok data''.
Proof.
  split; [reflexivity|]. split; [exact transform_sample_document|].
  exact (transform_preserves_well_formed
           sample_document sample_document_transformed
           eq_refl transform_sample_document).
Defined.

Lemma compress_toy_world_copied :
  compress_geojson toy_load toy_dump
                   "district_01.geojson" "out.geojson" toy_world
  = Ok (toy_world_copied, (3, 2)).
Proof. reflexivity. Qed.

Lemma compress_geojson_writes_only_output_witness :
  compress_geojson toy_load toy_dump
                   "district_01.geojson" "out.geojson" toy_world
    = Ok (toy_world_copied, (3, 2)) /\
  file_get "out.geojson" (files toy_world_copied) = Some "{}" /\
  written_paths (trace toy_world_copied) = ["out.geojson"] /\
  file_get "district_01.geojson" (files toy_world_copied) = Some "{ }".
Proof.
  split; [exact compress_toy_world_copied|].
  destruct (compress_geojson_writes_only_output
              toy_load toy_dump "district_01.geojson" "out.geojson"
              toy_world toy_world_copied 3 2 compress_toy_world_copied)
    as (text & data & data' & _ & _ & _ & _ & _ & Hw & Hframe).
  split; [reflexivity|]. split; [exact Hw|].
  rewrite (Hframe "district_01.geojson"); [reflexivity | discriminate].
Defined.

Lemma compress_geojson_distinct_paths_witness :
  exists w' : world,
    compress_geojson toy_load toy_dump
                     "district_01.geojson" "out.geojson" toy_world
    = Ok (w', (String.length "{ }", String.length (toy_dump (JObj [])))).
Proof.
  apply (compress_geojson_distinct_paths
           toy_load toy_dump "district_01.geojson" "out.geojson" toy_world
           "{ }" (JObj []) (JObj [])); try reflexivity; discriminate.
Defined.

Lemma main_sample_world :
  main toy_load toy_dump sample_world = Ok sample_world_after.
Proof. reflexivity. Qed.

Lemma NoDup_sample_world : NoDup (map fst (files sample_world)).
Proof. repeat constructor; cbn; intuition discriminate. Qed.

Lemma main_touches_only_district_files_witness :
  main toy_load toy_dump sample_world = Ok sample_world_after /\
  file_get "notes.txt" (files sample_world_after) = Some "keep" /\
  written_paths (trace sample_world_after)
    = ["district_01.geojson"; "district_02.geojson"].
Proof.
  split; [exact main_sample_world|].
  destruct (main_touches_only_district_files
              toy_load toy_dump sample_world sample_world_after
              main_sample_world) as (_ & Hframe & Hw).
  split; [|exact Hw].
  rewrite (Hframe "notes.txt"); reflexivity.
Defined.

Lemma main_rewrites_every_district_file_witness :
  exists data data' : json,
    toy_load "{ }" = Ok data /\
    transform data = Ok data' /\
    file_get "district_02.geojson" (files sample_world_after)
      = Some (toy_dump data').
Proof.
  exact (main_rewrites_every_district_file
           toy_load toy_dump sample_world sample_world_after
           NoDup_sample_world eq_refl main_sample_world
           "district_02.geojson" "{ }" eq_refl eq_refl).
Defined.

Lemma main_summary_totals_are_equal_witness :
  exists (before : list event) (total : nat),
    total <> 0 /\
    trace sample_world_after =
      before ++
      [ Printed MsgRule; Printed MsgSummaryTitle; Printed MsgRule;
        Printed (MsgTotalOriginal total);
        Printed (MsgTotalCompressed total);
        Printed (MsgTotalReduction total total);
        Printed (MsgSpaceSaved total total) ].
Proof.
  apply (main_summary_totals_are_equal
           toy_load toy_dump sample_world sample_world_after).
  - reflexivity.
  - discriminate.
  - exact main_sample_world.
Defined.

Lemma main_processes_in_ascending_order_witness :
  compressed_names (trace sample_world_after)
    = ["district_01.geojson"; "district_02.geojson"] /\
  Sorted (fun s1 s2 => String.leb s1 s2 = true)
         (glob_districts sample_world).
Proof.
  destruct (main_processes_in_ascending_order
              toy_load toy_dump sample_world sample_world_after
              eq_refl main_sample_world) as (Hn & Hs & _).
  split; [exact Hn | exact Hs].
Defined.

Lemma NoDup_sample_world_rejected :
  NoDup (map fst (files sample_world_rejected)).
Proof. repeat constructor; cbn; intuition discriminate. Qed.

Lemma main_aborts_on_a_rejected_file_witness :
  exists e : exn, main toy_load toy_dump sample_world_rejected = Raise e.
Proof.
  apply (main_aborts_on_a_rejected_file
           toy_load toy_dump sample_world_rejected
           "district_02.geojson" "{ "
           NoDup_sample_world_rejected eq_refl eq_refl eq_refl).
  intros (data & data' & Hl & _). discriminate Hl.
Defined.
